(** * Benchmark-results dashboard: derived metrics, resolver and charts

    A shallow embedding of the TypeScript sources
    - [src/api.ts]                         (dataset types, [loadData]),
    - [src/pages/DashboardPage.tsx]        ([formatCost], [truncatePrompt],
                                            [ColumnFilter], [DashboardPage]),
    - [src/components/ComparisonCharts.tsx] ([getLabel], [computeRunCost],
                                            the chart transforms, [SummaryCards]).

    JavaScript values are modelled as the language has them: a [number] is
    an IEEE-754 binary64 value (Rocq's primitive [float]), a string is a
    sequence of UTF-16 code units, [null]/[undefined] is [None], a [Map]
    used only through [get] is a [gmap], a [Map] whose iteration order is
    observed is an insertion-ordered association list. *)

From Stdlib Require Import ZArith NArith Floats List String Ascii DecimalString Sorted Lia.
From stdpp Require Import gmap list.
Import ListNotations.

Local Open Scope Z_scope.

(** ** JavaScript built-ins used by the sources *)

Module JS.

(** A string is its list of UTF-16 code units. *)
Abbreviation jsstring := (list N).

(** An ASCII literal as a JavaScript string. *)
Definition str (s : string) : jsstring :=
  map N_of_ascii (list_ascii_of_string s).

Definition slash : N := 47%N.
Definition ellipsis : jsstring := str "...".
(** The placeholder "—" (em dash). *)
Definition dash : jsstring := [8212%N].

(** [s.includes(c)] for a one-unit search string [c]. *)
Definition includes (s : jsstring) (c : N) : bool := existsb (N.eqb c) s.

(** [s.split(c)] for a one-unit separator [c]; never the empty array. *)
Fixpoint split (s : jsstring) (c : N) : list jsstring :=
  match s with
  | [] => [[]]
  | u :: s' =>
      if N.eqb u c then [] :: split s' c
      else match split s' c with
           | seg :: segs => (u :: seg) :: segs
           | [] => [[u]]
           end
  end.

(** [a.pop()]: the last element, [None] (undefined) on the empty array. *)
Definition pop {A} (a : list A) : option A := last a.

(** [s.slice(0, e)] for an integral [e]: a negative [e] counts from the
    end, and both bounds are clamped to the string. *)
Definition slice0 (s : jsstring) (e : Z) : jsstring :=
  let len := Z.of_nat (length s) in
  let k := if e <? 0 then Z.max (len + e) 0 else Z.min e len in
  take (Z.to_nat k) s.

(** White space and line terminators, the units [trimEnd] removes. *)
Definition isWhiteSpace (u : N) : bool :=
  ((9 <=? u) && (u <=? 13) || (u =? 32) || (u =? 160) || (u =? 5760)
   || (8192 <=? u) && (u <=? 8202) || (u =? 8232) || (u =? 8233)
   || (u =? 8239) || (u =? 8287) || (u =? 12288) || (u =? 65279))%N.

Fixpoint dropWhile {A} (p : A -> bool) (l : list A) : list A :=
  match l with
  | [] => []
  | x :: l' => if p x then dropWhile p l' else l
  end.

(** [s.trimEnd()]. *)
Definition trimEnd (s : jsstring) : jsstring :=
  rev (dropWhile isWhiteSpace (rev s)).

(** [a.reduce(f)] without an initial value: a [TypeError] ([None]) on the
    empty array, otherwise a left fold seeded with the first element. *)
Definition reduce1 {A} (f : A -> A -> A) (a : list A) : option A :=
  match a with
  | [] => None
  | x :: a' => Some (fold_left f a' x)
  end.

(** [a.sort(cmp)], stable: [gt x y] says that the comparator returned a
    positive number on [(x, y)], so that [y] has to come first.  This is
    the order of [sort] for a comparator that is consistent on the
    array (a total preorder, as code-unit order is, and as a difference
    of numbers is when none of them is NaN); for any other comparator
    ECMAScript leaves the order to the engine, and only the elements of
    the result are determined. *)
Fixpoint sortInsert {A} (gt : A -> A -> bool) (x : A) (l : list A) : list A :=
  match l with
  | [] => [x]
  | y :: l' => if gt x y then y :: sortInsert gt x l' else x :: l
  end.

Definition sort {A} (gt : A -> A -> bool) (a : list A) : list A :=
  fold_right (sortInsert gt) [] a.

(** Code-unit order, the order of [a.sort()] without a comparator. *)
Fixpoint unitsGt (x y : jsstring) : bool :=
  match x, y with
  | [], _ => false
  | _ :: _, [] => true
  | u :: x', v :: y' =>
      if (v <? u)%N then true else if (u <? v)%N then false else unitsGt x' y'
  end.

(** [Array.from(new Set(a))]: the distinct elements in first-insertion
    order. *)
Definition distinct (a : list jsstring) : list jsstring :=
  fold_left (fun seen x => if bool_decide (x ∈ seen) then seen else seen ++ [x]) a [].

(** *** Numbers *)

Definition Infinity : float := PrimFloat.infinity.

Definition ofZ (z : Z) : float :=
  SF2Prim (binary_normalize prec emax z 0 false).

(** [Math.round(x)]: the nearest integer, ties towards +Infinity; the sign
    of a zero result is the sign of [x]. *)
Definition Math_round (x : float) : float :=
  match Prim2SF x with
  | S754_finite s m e =>
      if 0 <=? e then x
      else
        let d := 2 ^ (- e) in
        let n := if s then Z.neg m else Z.pos m in
        let r := (2 * n + d) / (2 * d) in
        if r =? 0 then (if s then (-0)%float else 0%float) else ofZ r
  | _ => x
  end.

(** The integer [n] for which [n / 10^fd - |x|] is as close to zero as
    possible (the larger on a tie), for a finite [|x| = m * 2^e]. *)
Definition fixedDigits (m : positive) (e : Z) (fd : nat) : Z :=
  let p := 10 ^ Z.of_nat fd in
  if 0 <=? e then Z.pos m * 2 ^ e * p
  else let d := 2 ^ (- e) in (2 * Z.pos m * p + d) / (2 * d).

(** Whether a finite [m * 2^e] is at least 10^21, where [toFixed] falls
    back to [toString]. *)
Definition atLeast1e21 (m : positive) (e : Z) : bool :=
  if 0 <=? e then 10 ^ 21 <=? Z.pos m * 2 ^ e
  else 10 ^ 21 * 2 ^ (- e) <=? Z.pos m.

(** Decimal digits of a natural number. *)
Definition digits (n : Z) : jsstring :=
  str (DecimalString.NilZero.string_of_uint (N.to_uint (Z.to_N n))).

(** [Number::toString] of a finite integer [v >= 10^21]: the shortest
    decimal [s * 10^(n-k)] that reads back as the same double, in
    exponent notation.  [pick k] is the candidate with [k] digits. *)
Definition shortest (v : Z) : Z * Z :=
  let n := Z.of_nat (length (digits v)) in
  let x := ofZ v in
  let pick (k : Z) : option (Z * Z) :=
    let p := 10 ^ (n - k) in
    let lo := v / p in
    let hi := lo + 1 in
    let okLo := PrimFloat.eqb (ofZ (lo * p)) x in
    let okHi := PrimFloat.eqb (ofZ (hi * p)) x in
    let useHi := okHi && (negb okLo || (hi * p - v <? v - lo * p)
                          || ((hi * p - v =? v - lo * p) && Z.even hi)) in
    if useHi then Some (if hi =? 10 ^ k then (10 ^ (k - 1), n + 1) else (hi, n))
    else if okLo then Some (lo, n) else None in
  default (v, n)
    (fold_right (fun k found => match pick k with Some r => Some r | None => found end)
       None (map Z.of_nat (seq 1 17))).

Definition toStringLarge (v : Z) : jsstring :=
  let '(s, n) := shortest v in
  match digits s with
  | [] => []
  | d :: ds =>
      (d :: match ds with [] => [] | _ => str "." ++ ds end)
      ++ str "e+" ++ digits (n - 1)
  end.

(** [x.toFixed(fd)] *)
Definition toFixed (x : float) (fd : nat) : jsstring :=
  match Prim2SF x with
  | S754_nan => str "NaN"
  | S754_infinity s => (if s then str "-" else []) ++ str "Infinity"
  | S754_zero _ =>
      str "0" ++ (if fd is O then [] else str "." ++ repeat 48%N fd)
  | S754_finite s m e =>
      (if s then str "-" else []) ++
      (if atLeast1e21 m e then toStringLarge (Z.pos m * 2 ^ e)
       else
         let m0 := digits (fixedDigits m e fd) in
         match fd with
         | O => m0
         | _ =>
             let m1 := repeat 48%N (S fd - length m0) ++ m0 in
             let k := length m1 in
             take (k - fd) m1 ++ str "." ++ drop (k - fd) m1
         end)
  end.

(** The value of a run of decimal digits, [None] on any other unit. *)
Fixpoint digitsValue (acc : Z) (s : jsstring) : option Z :=
  match s with
  | [] => Some acc
  | u :: s' =>
      if ((48 <=? u) && (u <=? 57))%N
      then digitsValue (10 * acc + Z.of_N (u - 48)) s'
      else None
  end.

(** [s] up to the first [c], and what follows that [c] if there is one. *)
Fixpoint breakAt (c : N) (s : jsstring) : jsstring * option jsstring :=
  match s with
  | [] => ([], None)
  | u :: s' =>
      if N.eqb u c then ([], Some s')
      else let '(before, after) := breakAt c s' in (u :: before, after)
  end.

(** The double nearest to [n * 10^k], for [n >= 0], with sign [neg]. *)
Definition decimal (neg : bool) (n k : Z) : float :=
  match n with
  | Z.pos p =>
      if 0 <=? k then SF2Prim (binary_normalize prec emax
                                 ((if neg then Z.neg p else Z.pos p) * 10 ^ k) 0 false)
      else SF2Prim (SFdiv prec emax (S754_finite neg p 0)
                      (S754_finite false (Z.to_pos (10 ^ (- k))) 0))
  | _ => if neg then (-0)%float else 0%float
  end.

(** A non-empty run of decimal digits. *)
Definition numeral (s : jsstring) : option Z :=
  match s with
  | [] => None
  | _ => digitsValue 0 s
  end.

(** Unary [+] on a string, for the decimal literals [toFixed] and
    [toString] print: an optional sign, then [Infinity] or digits with an
    optional fraction and an optional exponent; [NaN] on anything else. *)
Definition toNumber (s : jsstring) : float :=
  let '(neg, body) := match s with
                      | 45%N :: s' => (true, s')
                      | _ => (false, s)
                      end in
  if bool_decide (body = str "Infinity")
  then (if neg then neg_infinity else infinity)
  else
    let '(mantissa, exponent) := breakAt 101 body in
    let '(whole, fraction) := breakAt 46 mantissa in
    let fraction := default [] fraction in
    let exponent :=
      match exponent with
      | None => Some 0
      | Some (43%N :: e) => numeral e
      | Some (45%N :: e) => Z.opp <$> numeral e
      | Some e => numeral e
      end in
    match numeral whole, digitsValue 0 (whole ++ fraction), exponent with
    | Some _, Some n, Some e => decimal neg n (e - Z.of_nat (length fraction))
    | _, _, _ => nan
    end.

End JS.
Import JS.

(** ** The dataset ([src/api.ts]) *)

Module RunRow.
Record t := {
  id : jsstring;
  status : jsstring;
  dataset : jsstring;
  prompt_version : jsstring;
  schema_version : jsstring;
  harness : jsstring;
  provider : jsstring;
  model : jsstring;
  total_files : float;
  completed_files : float;
  avg_score : option float;
  total_duration_ms : option float;
  started_at : jsstring;
  finished_at : option jsstring;
  total_input_tokens : option float;
  total_output_tokens : option float;
  prompt_preview : option jsstring
}.
End RunRow.

Module Cost.
Record t := { input : float; output : float }.
End Cost.

Module CatalogModel.
Record t := {
  provider : jsstring;
  id : jsstring;
  displayName : jsstring;
  family : option jsstring;
  supportsStructuredOutput : bool;
  active : bool;
  releaseDate : option jsstring;
  costPer1MTokens : option Cost.t;
  contextWindow : option float;
  maxOutput : option float
}.
End CatalogModel.

Module FileResultRow.
Record t := { file_id : jsstring; score : float }.
End FileResultRow.

(** [StaticData] without the provider list, which no function reads. *)
Module StaticData.
Record t := {
  exportedAt : jsstring;
  models : list CatalogModel.t;
  runs : list RunRow.t;
  fileScores : list (jsstring * list FileResultRow.t)
}.
End StaticData.

(** The lookup from model id to catalog entry, a [Map<string, CatalogModel>]
    read only through [get]. *)
Abbreviation ModelMap := (gmap jsstring CatalogModel.t).

(** *** [loadData] on the event loop

    [loadData] is an [async] function: a call runs synchronously up to its
    first [await], and resumes in a later turn of the event loop, after
    the response has arrived and its body has been parsed.  The module
    state is the variable [cached]; the two counters record what the
    calls did to the outside world and to [cached]. *)

Module Loader.

Record state := {
  cached : option StaticData.t;
  (** calls of [fetch("/data.json")] so far *)
  fetches : nat;
  (** assignments to [cached] so far *)
  writes : nat;
  (** calls suspended at [await fetch(...)] *)
  inFlight : nat;
  (** calls that have returned the dataset *)
  returned : list StaticData.t
}.

Definition init : state :=
  {| cached := None; fetches := 0; writes := 0; inFlight := 0; returned := [] |}.

Inductive event :=
| Call                          (* some caller invokes [loadData()] *)
| Respond (d : StaticData.t).   (* one suspended call resumes with the parsed body *)

(** The part of [loadData] before the first [await]. *)
Definition loadData_enter (s : state) : state :=
  match cached s with
  | Some d =>
      {| cached := cached s; fetches := fetches s; writes := writes s;
         inFlight := inFlight s; returned := returned s ++ [d] |}
  | None =>
      {| cached := None; fetches := S (fetches s); writes := writes s;
         inFlight := S (inFlight s); returned := returned s |}
  end.

(** The part after the awaits: [cached = ...; return cached]. *)
Definition loadData_resume (d : StaticData.t) (s : state) : state :=
  match inFlight s with
  | O => s
  | S k =>
      {| cached := Some d; fetches := fetches s; writes := S (writes s);
         inFlight := k; returned := returned s ++ [d] |}
  end.

Definition step (s : state) (e : event) : state :=
  match e with
  | Call => loadData_enter s
  | Respond d => loadData_resume d s
  end.

Definition run (es : list event) : state := fold_left step es init.

End Loader.

(** *** The catalog index (the first effect of [DashboardPage])

    [const map = new Map(); for (const m of catalog.models) map.set(m.id, m)] *)

Definition buildIndex (models : list CatalogModel.t) : ModelMap :=
  fold_left (fun map m => <[CatalogModel.id m := m]> map) models ∅.

(** ** Derived metrics and charts ([src/components/ComparisonCharts.tsx]) *)

Definition CHART_COLORS : list jsstring :=
  [str "#ff8c00"; str "#4a90d9"; str "#e05050"; str "#50b050";
   str "#b07cc8"; str "#d4a843"; str "#5cb8b2"; str "#c0c0c0"].

(** [CHART_COLORS[i % CHART_COLORS.length]] *)
Definition chartColor (i : nat) : jsstring :=
  nth (i mod length CHART_COLORS) CHART_COLORS [].

(** [run.model.includes("/") ? run.model.split("/").pop()! : run.model] *)
Definition strippedModel (run : RunRow.t) : jsstring :=
  let m := RunRow.model run in
  if includes m slash then default m (pop (split m slash)) else m.

Definition getLabel (run : RunRow.t) : jsstring :=
  let model := strippedModel run in
  if (28 <? length model)%nat then take 26 model ++ ellipsis else model.

(** [model?.costPer1MTokens]: the pricing object of a model that is there. *)
Definition pricing (model : option CatalogModel.t) : option Cost.t :=
  model ≫= CatalogModel.costPer1MTokens.

Definition computeRunCost (run : RunRow.t) (model : option CatalogModel.t)
  : option float :=
  match pricing model with
  | None => None
  | Some price =>
      let inp := default 0%float (RunRow.total_input_tokens run) in
      let out := default 0%float (RunRow.total_output_tokens run) in
      if PrimFloat.eqb inp 0 && PrimFloat.eqb out 0 then None
      else Some (inp / 1000000 * Cost.input price
                 + out / 1000000 * Cost.output price)%float
  end.

(** *** Score by release date *)

Module ReleasePoint.
(** An entry of [bestByModel], without the logo URL. *)
Record t := { score : float; releaseDate : jsstring; name : jsstring }.
End ReleasePoint.

(** A [Map] whose iteration order is observed: keys in insertion order,
    [set] on a key that is there keeps its place. *)
Definition OrderedMap (V : Type) := list (jsstring * V).

Fixpoint Map_get {V} (m : OrderedMap V) (k : jsstring) : option V :=
  match m with
  | [] => None
  | (k', v) :: m' => if bool_decide (k' = k) then Some v else Map_get m' k
  end.

Fixpoint Map_set {V} (m : OrderedMap V) (k : jsstring) (v : V) : OrderedMap V :=
  match m with
  | [] => [(k, v)]
  | (k', v') :: m' =>
      if bool_decide (k' = k) then (k, v) :: m' else (k', v') :: Map_set m' k v
  end.

Definition Map_values {V} (m : OrderedMap V) : list V := map snd m.

(** [!model?.releaseDate]: absent model, absent date or empty date. *)
Definition releaseDateOf (model : option CatalogModel.t) : option jsstring :=
  match model ≫= CatalogModel.releaseDate with
  | Some [] => None
  | d => d
  end.

(** One iteration of the loop over [runs]. *)
Definition bestByModel_step (modelMap : ModelMap)
  (bestByModel : OrderedMap ReleasePoint.t) (r : RunRow.t)
  : OrderedMap ReleasePoint.t :=
  let model := modelMap !! RunRow.model r in
  match model, releaseDateOf model, RunRow.avg_score r with
  | Some m, Some date, Some avg =>
      let update :=
        Map_set bestByModel (RunRow.model r)
          {| ReleasePoint.score := Math_round (avg * 100);
             ReleasePoint.releaseDate := date;
             ReleasePoint.name := CatalogModel.displayName m |} in
      match Map_get bestByModel (RunRow.model r) with
      | None => update
      | Some existing =>
          if PrimFloat.ltb (ReleasePoint.score existing) avg then update
          else bestByModel
      end
  | _, _, _ => bestByModel
  end.

Definition bestByModel (runs : list RunRow.t) (modelMap : ModelMap)
  : OrderedMap ReleasePoint.t :=
  fold_left (bestByModel_step modelMap) runs [].

Section ReleaseDateChart.
(** [a.localeCompare(b) > 0] in the host's collation. *)
Variable localeGt : jsstring -> jsstring -> bool.

(** The series of the chart ([data], without the two fields derived
    from [releaseDate] for display), [None] when the chart is not
    rendered. *)
Definition PerformanceByReleaseDateChart
  (runs : list RunRow.t) (modelMap : ModelMap) : option (list ReleasePoint.t) :=
  let data :=
    sort (fun a b => localeGt (ReleasePoint.releaseDate a) (ReleasePoint.releaseDate b))
      (Map_values (bestByModel runs modelMap)) in
  if (length data <? 2)%nat then None else Some data.
End ReleaseDateChart.

(** *** Cost efficiency *)

Module Efficiency.
Record t := { name : jsstring; efficiency : float; fill : jsstring }.
End Efficiency.

(** The callback of [runs.map] in [CostEfficiencyChart]. *)
Definition efficiencyEntry (modelMap : ModelMap) (r : RunRow.t) (i : nat)
  : option Efficiency.t :=
  let model := modelMap !! RunRow.model r in
  match computeRunCost r model, RunRow.avg_score r with
  | Some cost, Some avg =>
      if PrimFloat.eqb cost 0 then None
      else
        let scorePct := Math_round (avg * 100) in
        Some {| Efficiency.name := getLabel r;
                Efficiency.efficiency := toNumber (toFixed (scorePct / cost) 1);
                Efficiency.fill := chartColor i |}
  | _, _ => None
  end.

(** [a.map((r, i) => f(r, i)).filter(Boolean)] *)
Definition mapFilterIndexed {A B} (f : A -> nat -> option B) (a : list A) : list B :=
  omap (fun '(i, r) => f r i) (imap pair a).

Definition CostEfficiencyChart (runs : list RunRow.t) (modelMap : ModelMap)
  : option (list Efficiency.t) :=
  let data := mapFilterIndexed (efficiencyEntry modelMap) runs in
  if (length data <? 2)%nat then None
  else Some (sort (fun a b =>
                     PrimFloat.ltb 0 (Efficiency.efficiency b - Efficiency.efficiency a))
               data).

(** *** Summary cards *)

Module Summary.
Record t := { best : RunRow.t; fastest : RunRow.t; avgScore : float }.
End Summary.

(** [None] is the [TypeError] of [reduce] on an empty array. *)
Definition SummaryCards (runs : list RunRow.t) : option Summary.t :=
  best ← reduce1 (fun a b =>
            if PrimFloat.leb (default 0%float (RunRow.avg_score b))
                             (default 0%float (RunRow.avg_score a))
            then a else b) runs;
  fastest ← reduce1 (fun a b =>
            if PrimFloat.leb (default Infinity (RunRow.total_duration_ms a))
                             (default Infinity (RunRow.total_duration_ms b))
            then a else b) runs;
  let avgScore :=
    (fold_left (fun sum r => sum + default 0 (RunRow.avg_score r)) runs 0
     / ofZ (Z.of_nat (length runs)))%float in
  Some {| Summary.best := best; Summary.fastest := fastest;
          Summary.avgScore := avgScore |}.

(** The children of [ComparisonCharts] that are modelled here.
    [SummaryCards] is rendered first and unconditionally, so its
    exception is the component's. *)
Module Comparison.
Record t := {
  summary : Summary.t;
  releaseDates : option (list ReleasePoint.t);
  costEfficiency : option (list Efficiency.t)
}.
End Comparison.

Definition ComparisonCharts (localeGt : jsstring -> jsstring -> bool)
  (runs : list RunRow.t) (modelMap : ModelMap) : option Comparison.t :=
  summary ← SummaryCards runs;
  Some {| Comparison.summary := summary;
          Comparison.releaseDates := PerformanceByReleaseDateChart localeGt runs modelMap;
          Comparison.costEfficiency := CostEfficiencyChart runs modelMap |}.

(** ** The dashboard page ([src/pages/DashboardPage.tsx]) *)

Definition formatCost (run : RunRow.t) (model : option CatalogModel.t) : jsstring :=
  match pricing model with
  | None => dash
  | Some price =>
      let inputTokens := default 0%float (RunRow.total_input_tokens run) in
      let outputTokens := default 0%float (RunRow.total_output_tokens run) in
      if PrimFloat.eqb inputTokens 0 && PrimFloat.eqb outputTokens 0 then dash
      else
        let cost := (inputTokens / 1000000 * Cost.input price
                     + outputTokens / 1000000 * Cost.output price)%float in
        if PrimFloat.ltb cost 0.01 then str "$" ++ toFixed cost 4
        else if PrimFloat.ltb cost 1 then str "$" ++ toFixed cost 3
        else str "$" ++ toFixed cost 2
  end.

(** [truncatePrompt(text, max = 72)] for an integral [max]; [!text] holds
    of [undefined] and of the empty string. *)
Definition truncatePrompt (text : option jsstring) (max : Z) : jsstring :=
  match text with
  | None | Some [] => dash
  | Some text =>
      if Z.of_nat (length text) <=? max then text
      else trimEnd (slice0 text max) ++ ellipsis
  end.

Definition truncatePrompt_default (text : option jsstring) : jsstring :=
  truncatePrompt text 72.

(** *** Column filters *)

Module Select.
(** The [<select>] of a column filter: its current value and its
    options as (value, label) pairs. *)
Record t := { value : jsstring; options : list (jsstring * jsstring) }.
End Select.

(** [Array.from(new Set(rows.map(r => String(r.getValue(column.id) ?? "")))).sort()],
    over the cells of the column in the faceted row model; the
    filterable columns hold strings. *)
Definition facetValues (cells : list (option jsstring)) : list jsstring :=
  sort unitsGt (distinct (map (default []) cells)).

(** [None] is the [null] the component returns to render nothing. *)
Definition ColumnFilter (cells : list (option jsstring))
  (columnFilterValue : option jsstring) : option Select.t :=
  let values := facetValues cells in
  if (length values <=? 1)%nat then None
  else Some {| Select.value := default [] columnFilterValue;
               Select.options := ([], str "All") :: map (fun v => (v, v)) values |}.

(** The argument [onChange] passes to [column.setFilterValue]:
    [e.target.value || undefined]. *)
Definition onChangeValue (targetValue : jsstring) : option jsstring :=
  match targetValue with
  | [] => None
  | _ => Some targetValue
  end.

(** [ColumnFiltersState], the table's list of [{ id, value }] terms. *)
Definition ColumnFiltersState := list (jsstring * jsstring).

(** [column.setFilterValue] of the table library, on the state it
    updates: [undefined] (and, with the default filter function of a
    string column, the empty string) removes the column's term, any
    other value replaces the term in place or is appended. *)
Definition setFilterValue (column : jsstring) (value : option jsstring)
  (old : ColumnFiltersState) : ColumnFiltersState :=
  match value with
  | None | Some [] => filter (fun d => d.1 ≠ column) old
  | Some v =>
      if bool_decide (column ∈ map fst old)
      then map (fun d => if bool_decide (d.1 = column) then (column, v) else d) old
      else old ++ [(column, v)]
  end.

(** *** The page *)

Module Page.
(** The state a render of [DashboardPage] reads: its own [useState]
    cells and the two row models of the table. *)
Record state := {
  runs : list RunRow.t;
  loading : bool;
  modelMap : ModelMap;
  (** [table.getSelectedRowModel().rows.map(r => r.original)] *)
  selectedRuns : list RunRow.t;
  (** [table.getFilteredRowModel().rows.map(r => r.original)] *)
  filteredRuns : list RunRow.t
}.

(** The props of the [<ComparisonCharts>] element. *)
Record comparisonProps := { chart_runs : list RunRow.t; chart_modelMap : ModelMap }.

Inductive view :=
| LoadingResults                 (* <p>Loading results...</p> *)
| NoBenchmarkRuns                (* <p>No benchmark runs found.</p> *)
| Dashboard (maxHeight : jsstring) (comparison : option comparisonProps).
End Page.

(** [selectedRuns.length >= 2 ? selectedRuns : filteredRuns] *)
Definition chartRuns (selectedRuns filteredRuns : list RunRow.t) : list RunRow.t :=
  if (2 <=? length selectedRuns)%nat then selectedRuns else filteredRuns.

Definition DashboardPage (st : Page.state) : Page.view :=
  let chartRuns := chartRuns (Page.selectedRuns st) (Page.filteredRuns st) in
  if Page.loading st then Page.LoadingResults
  else if (length (Page.runs st) =? 0)%nat then Page.NoBenchmarkRuns
  else
    Page.Dashboard
      (if (2 <=? length chartRuns)%nat then str "420px" else str "calc(100vh - 120px)")
      (if (2 <=? length chartRuns)%nat
       then Some {| Page.chart_runs := chartRuns;
                    Page.chart_modelMap := Page.modelMap st |}
       else None).



(** ** Vocabulary of the statements *)

(** The entries of [models] with id [k], in input order. *)
Definition withId (k : jsstring) (models : list CatalogModel.t) : list CatalogModel.t :=
  filter (fun m => CatalogModel.id m = k) models.

(** [run.total_input_tokens ?? 0] and [run.total_output_tokens ?? 0] *)
Definition inputTokens (run : RunRow.t) : float :=
  default 0%float (RunRow.total_input_tokens run).
Definition outputTokens (run : RunRow.t) : float :=
  default 0%float (RunRow.total_output_tokens run).

(** At least one of the two counts is not [=== 0]. *)
Definition someTokens (run : RunRow.t) : Prop :=
  PrimFloat.eqb (inputTokens run) 0 = false \/ PrimFloat.eqb (outputTokens run) 0 = false.

(** The cost formula, at the pricing of the joined model. *)
Definition costAt (run : RunRow.t) (price : Cost.t) : float :=
  (inputTokens run / 1000000 * Cost.input price
   + outputTokens run / 1000000 * Cost.output price)%float.

(** [segs.join(c)] *)
Fixpoint join (c : N) (segs : list jsstring) : jsstring :=
  match segs with
  | [] => []
  | [seg] => seg
  | seg :: segs' => seg ++ c :: join c segs'
  end.

(** ** Sample data *)

Definition sampleRun (id model : string) (avg_score : option float) : RunRow.t :=
  {| RunRow.id := str id; RunRow.status := str "completed";
     RunRow.dataset := str "d"; RunRow.prompt_version := str "v1";
     RunRow.schema_version := str "s1"; RunRow.harness := str "h";
     RunRow.provider := str "p"; RunRow.model := str model;
     RunRow.total_files := 1; RunRow.completed_files := 1;
     RunRow.avg_score := avg_score; RunRow.total_duration_ms := None;
     RunRow.started_at := str "2025-01-01T00:00:00Z";
     RunRow.finished_at := None;
     RunRow.total_input_tokens := None; RunRow.total_output_tokens := None;
     RunRow.prompt_preview := None |}.

(** Two visible rows, loading finished: the comparison view is rendered. *)
Definition twoRows : Page.state :=
  let rows := [sampleRun "r1" "a" (Some 0.5%float); sampleRun "r2" "b" None] in
  {| Page.runs := rows; Page.loading := false; Page.modelMap := ∅;
     Page.selectedRuns := []; Page.filteredRuns := rows |}.

Definition sampleModel (id : string) (releaseDate : option jsstring)
  (price : option Cost.t) : CatalogModel.t :=
  {| CatalogModel.provider := str "p"; CatalogModel.id := str id;
     CatalogModel.displayName := str id; CatalogModel.family := None;
     CatalogModel.supportsStructuredOutput := true; CatalogModel.active := true;
     CatalogModel.releaseDate := releaseDate;
     CatalogModel.costPer1MTokens := price;
     CatalogModel.contextWindow := None; CatalogModel.maxOutput := None |}.

Definition withTokens (inp out : option float) (r : RunRow.t) : RunRow.t :=
  {| RunRow.id := RunRow.id r; RunRow.status := RunRow.status r;
     RunRow.dataset := RunRow.dataset r;
     RunRow.prompt_version := RunRow.prompt_version r;
     RunRow.schema_version := RunRow.schema_version r;
     RunRow.harness := RunRow.harness r; RunRow.provider := RunRow.provider r;
     RunRow.model := RunRow.model r; RunRow.total_files := RunRow.total_files r;
     RunRow.completed_files := RunRow.completed_files r;
     RunRow.avg_score := RunRow.avg_score r;
     RunRow.total_duration_ms := RunRow.total_duration_ms r;
     RunRow.started_at := RunRow.started_at r;
     RunRow.finished_at := RunRow.finished_at r;
     RunRow.total_input_tokens := inp; RunRow.total_output_tokens := out;
     RunRow.prompt_preview := RunRow.prompt_preview r |}.

(** One million input tokens at a price of -1 per million. *)
Definition negativePrice : CatalogModel.t :=
  sampleModel "m" None (Some {| Cost.input := (-1)%float; Cost.output := 0 |}).
Definition negativeCostRun : RunRow.t :=
  withTokens (Some 1000000%float) None (sampleRun "r1" "m" (Some 0.5%float)).

(** Two runs of model [m1], the later one scoring higher, and one run of
    model [m2]. *)
Definition releaseCatalog : ModelMap :=
  buildIndex [sampleModel "m1" (Some (str "2024-01-01")) None;
              sampleModel "m2" (Some (str "2024-06-01")) None].
Definition releaseRuns : list RunRow.t :=
  [sampleRun "r1" "m1" (Some 0.5%float); sampleRun "r2" "m1" (Some 0.9%float);
   sampleRun "r3" "m2" (Some 0.7%float)].

(** A model id of 29 characters behind a provider prefix. *)
Definition longModelRun : RunRow.t :=
  sampleRun "r1" "provider/abcdefghijklmnopqrstuvwxyz012" None.

Definition emptyData : StaticData.t :=
  {| StaticData.exportedAt := str "2025-01-01T00:00:00Z"; StaticData.models := [];
     StaticData.runs := []; StaticData.fileScores := [] |}.

(** ** More of the built-ins *)

Module JS2.

(** [s.indexOf(c)] for a one-unit search string, [-1] when absent. *)
Fixpoint indexOf (s : jsstring) (c : N) : Z :=
  match s with
  | [] => -1
  | u :: s' =>
      if N.eqb u c then 0
      else let i := indexOf s' c in if i <? 0 then -1 else i + 1
  end.

(** The [n] with [10^(n-1) <= m * 2^e < 10^n]. *)
Definition decimalExponent (m : positive) (e : Z) : Z :=
  if 0 <=? e then Z.of_nat (length (digits (Z.pos m * 2 ^ e)))
  else
    let d := 2 ^ (- e) in
    let q := Z.pos m / d in
    if 0 <? q then Z.of_nat (length (digits q))
    else
      match find (fun j => d <=? Z.pos m * 10 ^ Z.of_nat j) (seq 1 400) with
      | Some j => 1 - Z.of_nat j
      | None => 0
      end.

(** The digits [s] and the exponent [n] of [Number::toString] for the
    finite positive [m * 2^e]: the shortest [s * 10^(n-k)], [k] the
    number of digits of [s], that reads back as the same double, the
    closest one (the even one on a tie) among those of that length. *)
Definition shortestDigits (m : positive) (e : Z) : Z * Z :=
  let n := decimalExponent m e in
  let x := SF2Prim (S754_finite false m e) in
  let num := if 0 <=? e then Z.pos m * 2 ^ e else Z.pos m in
  let den := if 0 <=? e then 1 else 2 ^ (- e) in
  let pick (k : Z) : option (Z * Z) :=
    let ynum := if 0 <=? n - k then num else num * 10 ^ (k - n) in
    let yden := if 0 <=? n - k then den * 10 ^ (n - k) else den in
    let lo := ynum / yden in
    let hi := lo + 1 in
    let okLo := (0 <? lo) && PrimFloat.eqb (decimal false lo (n - k)) x in
    let okHi := PrimFloat.eqb (decimal false hi (n - k)) x in
    let dHi := hi * yden - ynum in
    let dLo := ynum - lo * yden in
    let useHi := okHi && (negb okLo || (dHi <? dLo) || ((dHi =? dLo) && Z.even hi)) in
    if useHi then Some (if hi =? 10 ^ k then (10 ^ (k - 1), n + 1) else (hi, n))
    else if okLo then Some (lo, n) else None in
  default (num, n)
    (fold_right (fun k found => match pick k with Some r => Some r | None => found end)
       None (map Z.of_nat (seq 1 17))).

(** [String(x)], [x.toString()] and [`${x}`] for a number. *)
Definition toString (x : float) : jsstring :=
  match Prim2SF x with
  | S754_nan => str "NaN"
  | S754_infinity s => (if s then str "-" else []) ++ str "Infinity"
  | S754_zero _ => str "0"
  | S754_finite sign m e =>
      let '(s, n) := shortestDigits m e in
      let ds := digits s in
      let k := Z.of_nat (length ds) in
      (if sign then str "-" else []) ++
      (if (k <=? n) && (n <=? 21) then ds ++ repeat 48%N (Z.to_nat (n - k))
       else if (0 <? n) && (n <=? 21)
            then take (Z.to_nat n) ds ++ str "." ++ drop (Z.to_nat n) ds
       else if (-6 <? n) && (n <=? 0)
            then str "0." ++ repeat 48%N (Z.to_nat (- n)) ++ ds
       else
         let exponent := (if n - 1 <? 0 then str "-" else str "+")
                         ++ digits (Z.abs (n - 1)) in
         match ds with
         | [d] => [d] ++ str "e" ++ exponent
         | d :: ds' => [d] ++ str "." ++ ds' ++ str "e" ++ exponent
         | [] => []
         end)
  end.

End JS2.
Import JS2.

(** ** The theme ([src/hooks/useTheme.ts], [ThemeToggle] of [src/App.tsx]) *)

Module Theme.
Inductive t := light | dark.

Definition name (theme : t) : jsstring :=
  match theme with light => str "light" | dark => str "dark" end.

(** What the hook reads and writes outside React: the storage of the
    page, the media query [(prefers-color-scheme: dark)] and the class
    list of the document element. *)
Record env := {
  localStorage : gmap jsstring jsstring;
  prefersDark : bool;
  classList : gset jsstring
}.

Definition key : jsstring := str "benchmark-theme".

(** The initialiser of [useState<Theme>]. *)
Definition initial (e : env) : t :=
  let os := if prefersDark e then dark else light in
  match localStorage e !! key with
  | Some stored =>
      if bool_decide (stored = str "dark") then dark
      else if bool_decide (stored = str "light") then light
      else os
  | None => os
  end.

(** The effect on [theme]: [classList.toggle("dark", theme === "dark")]
    and [localStorage.setItem("benchmark-theme", theme)]. *)
Definition effect (theme : t) (e : env) : env :=
  {| localStorage := <[key := name theme]> (localStorage e);
     prefersDark := prefersDark e;
     classList := match theme with
                  | dark => {[str "dark"]} ∪ classList e
                  | light => classList e ∖ {[str "dark"]}
                  end |}.

(** [setTheme(t => t === "dark" ? "light" : "dark")] *)
Definition toggle (theme : t) : t :=
  match theme with dark => light | light => dark end.

(** The caption of the [ThemeToggle] button. *)
Definition toggleCaption (theme : t) : jsstring :=
  match theme with dark => str "Light" | light => str "Dark" end.
End Theme.

(** ** Provider logos ([src/components/ModelBadge.tsx]) *)

Definition MODELS_DEV_LOGO_BASE : jsstring := str "https://models.dev/logos".

Definition getProviderSlug (model : CatalogModel.t) : jsstring :=
  let slash := indexOf (CatalogModel.id model) JS.slash in
  if 0 <? slash then slice0 (CatalogModel.id model) slash
  else CatalogModel.provider model.

Definition getModelLogoUrl (model : CatalogModel.t) : jsstring :=
  MODELS_DEV_LOGO_BASE ++ str "/" ++ getProviderSlug model ++ str ".svg".

(** ** More of the dashboard page *)


(** The [cell] of the cost column: the bare text, or the text under a
    tooltip with the two prices. *)
Inductive costCell :=
| BareCost (text : jsstring)
| CostWithTip (tip text : jsstring).

Definition middleDot : jsstring := [183%N].

Definition costColumnCell (modelMap : ModelMap) (row : RunRow.t) : costCell :=
  let model := modelMap !! RunRow.model row in
  let cost := formatCost row model in
  match pricing model with
  | None => BareCost cost
  | Some price =>
      if bool_decide (cost = dash) then BareCost cost
      else CostWithTip
             (str "$" ++ toString (Cost.input price) ++ str "/M in " ++ middleDot
              ++ str " $" ++ toString (Cost.output price) ++ str "/M out")
             cost
  end.

(** ** The other charts of [ComparisonCharts.tsx] *)

Module ScoreBar.
Record t := { name : jsstring; score : float; fill : jsstring }.
End ScoreBar.

(** [data] of [ScoreComparisonChart] *)
Definition ScoreComparisonChart (runs : list RunRow.t) : list ScoreBar.t :=
  imap (fun i r =>
          {| ScoreBar.name := getLabel r;
             ScoreBar.score := match RunRow.avg_score r with
                               | Some avg => Math_round (avg * 100)
                               | None => 0%float
                               end;
             ScoreBar.fill := chartColor i |}) runs.

Module DurationBar.
Record t := { name : jsstring; duration : float; fill : jsstring }.
End DurationBar.

(** [data] of [DurationComparisonChart] *)
Definition DurationComparisonChart (runs : list RunRow.t) : list DurationBar.t :=
  imap (fun i r =>
          {| DurationBar.name := getLabel r;
             DurationBar.duration := match RunRow.total_duration_ms r with
                                     | Some ms => toNumber (toFixed (ms / 1000) 1)
                                     | None => 0%float
                                     end;
             DurationBar.fill := chartColor i |}) runs.

Module ScatterPoint.
Record t := {
  name : jsstring;
  displayName : jsstring;
  cost : float;
  score : float;
  fill : jsstring;
  logoUrl : option jsstring
}.
End ScatterPoint.

(** The callback of [runs.map] in [CostVsPerformanceChart]. *)
Definition scatterPoint (modelMap : ModelMap) (r : RunRow.t) (i : nat)
  : option ScatterPoint.t :=
  let model := modelMap !! RunRow.model r in
  match computeRunCost r model, RunRow.avg_score r with
  | Some cost, Some avg =>
      Some {| ScatterPoint.name := getLabel r;
              ScatterPoint.displayName :=
                default (getLabel r) (CatalogModel.displayName <$> model);
              ScatterPoint.cost := toNumber (toFixed cost 4);
              ScatterPoint.score := Math_round (avg * 100);
              ScatterPoint.fill := chartColor i;
              ScatterPoint.logoUrl := getModelLogoUrl <$> model |}
  | _, _ => None
  end.

(** [data] of [CostVsPerformanceChart], [None] when it renders nothing. *)
Definition CostVsPerformanceChart (runs : list RunRow.t) (modelMap : ModelMap)
  : option (list ScatterPoint.t) :=
  let data := mapFilterIndexed (scatterPoint modelMap) runs in
  if (length data <? 2)%nat then None else Some data.

(** *** The per-file heatmap *)

Definition scoreColor (score : float) (isDark : bool) : jsstring :=
  if PrimFloat.leb 1 score then (if isDark then str "#166534" else str "#bbf7d0")
  else if PrimFloat.leb 0.9 score then (if isDark then str "#14532d" else str "#dcfce7")
  else if PrimFloat.leb 0.75 score then (if isDark then str "#422006" else str "#fef3c7")
  else if PrimFloat.leb 0.5 score then (if isDark then str "#7c2d12" else str "#fed7aa")
  else (if isDark then str "#7f1d1d" else str "#fecaca").

(** The body of the effect of [ComparisonCharts], applied to
    [Object.entries(allScores)]: the entries of the resolved runs. *)
Definition selectFileScores (runs : list RunRow.t)
  (allScores : list (jsstring * list FileResultRow.t))
  : OrderedMap (list FileResultRow.t) :=
  fold_left (fun map entry =>
               if bool_decide (entry.1 ∈ RunRow.id <$> runs)
               then Map_set map entry.1 entry.2 else map)
    allScores [].

(** [allFileIds]: the file ids of all the lists, distinct and sorted. *)
Definition allFileIds (filesByRun : OrderedMap (list FileResultRow.t)) : list jsstring :=
  sort unitsGt
    (distinct (concat (map (map FileResultRow.file_id) (Map_values filesByRun)))).

(** The inner map of [scoreMap] for one run, read only through [get]. *)
Definition fileScoresOf (files : list FileResultRow.t) : gmap jsstring float :=
  fold_left (fun inner f => <[FileResultRow.file_id f := FileResultRow.score f]> inner)
    files ∅.

(** [scoreMap], keyed like [filesByRun]. *)
Definition scoreMap (filesByRun : OrderedMap (list FileResultRow.t))
  : OrderedMap (gmap jsstring float) :=
  fold_left (fun map entry => Map_set map entry.1 (fileScoresOf entry.2)) filesByRun [].

Module HeatCell.
Record t := { text : jsstring; background : jsstring; fontWeight : Z }.
End HeatCell.

(** One [<td>] of the heatmap. *)
Definition heatCell (scores : option (gmap jsstring float)) (fid : jsstring)
  (isDark : bool) : HeatCell.t :=
  match scores ≫= (fun inner => inner !! fid) with
  | Some score =>
      {| HeatCell.text := toString (Math_round (score * 100));
         HeatCell.background := scoreColor score isDark;
         HeatCell.fontWeight := if PrimFloat.leb 1 score then 600 else 400 |}
  | None =>
      {| HeatCell.text := dash; HeatCell.background := str "transparent";
         HeatCell.fontWeight := 400 |}
  end.

Module Heatmap.
(** The header of file ids and one row per run: its label and cells. *)
Record t := { header : list jsstring; rows : list (jsstring * list HeatCell.t) }.
End Heatmap.

(** [None] is the [null] returned when there is no file id at all. *)
Definition PerFileHeatmap (runs : list RunRow.t)
  (filesByRun : OrderedMap (list FileResultRow.t)) (isDark : bool)
  : option Heatmap.t :=
  let fileIds := allFileIds filesByRun in
  if (length fileIds =? 0)%nat then None
  else
    let scoreMap := scoreMap filesByRun in
    Some {| Heatmap.header := fileIds;
            Heatmap.rows :=
              map (fun run =>
                     let scores := Map_get scoreMap (RunRow.id run) in
                     (getLabel run,
                      map (fun fid => heatCell scores fid isDark) fileIds))
                runs |}.

(** The heatmap section of [ComparisonCharts] once the file scores have
    arrived: [filesByRun.size > 0 && <PerFileHeatmap ... />]. *)
Definition heatmapSection (runs : list RunRow.t)
  (allScores : list (jsstring * list FileResultRow.t)) (isDark : bool)
  : option Heatmap.t :=
  let filesByRun := selectFileScores runs allScores in
  if (0 <? length filesByRun)%nat then PerFileHeatmap runs filesByRun isDark
  else None.

(** *** The heatmap section from one render to the next

    [PerFileHeatmap] calls its second [useMemo] after the early return,
    so it runs one hook when it returns [null] and two when it renders
    the table.  The section keeps the instance in place as long as
    [filesByRun.size > 0], and React throws when an instance runs a
    different number of hooks than in its previous render. *)

Module HeatmapInstance.
(** What the previous render left at the place of [<PerFileHeatmap>]. *)
Inductive t :=
| absent          (* nothing: first render, or the section was not rendered *)
| returnedNull    (* an instance that ran one hook *)
| renderedTable.  (* an instance that ran two hooks *)
End HeatmapInstance.

Inductive sectionView :=
| NoSection                                   (* [filesByRun.size > 0] is false *)
| SectionAround (heatmap : option Heatmap.t)  (* the bordered wrapper and its content *)
| HookOrderError.                             (* the error of a changed number of hooks *)

(** The section in the render that follows the arrival of the file
    scores for [runs]. *)
Definition renderHeatmapSection (previous : HeatmapInstance.t)
  (runs : list RunRow.t) (allScores : list (jsstring * list FileResultRow.t))
  (isDark : bool) : sectionView :=
  let filesByRun := selectFileScores runs allScores in
  if (0 <? length filesByRun)%nat then
    match PerFileHeatmap runs filesByRun isDark, previous with
    | None, HeatmapInstance.renderedTable => HookOrderError
    | Some _, HeatmapInstance.returnedNull => HookOrderError
    | heatmap, _ => SectionAround heatmap
    end
  else NoSection.

(** ** Vocabulary of the further statements *)

(** [Number.isNaN(x)] *)
Definition isNaN (x : float) : bool := negb (PrimFloat.eqb x x).

(** [r.avg_score ?? 0] and [r.total_duration_ms ?? Infinity], the keys of
    the two scans of [SummaryCards]. *)
Definition scoreOf (r : RunRow.t) : float := default 0%float (RunRow.avg_score r).
Definition durationOf (r : RunRow.t) : float :=
  default Infinity (RunRow.total_duration_ms r).



(** A decimal digit. *)
Definition isDigit (u : N) : bool := ((48 <=? u) && (u <=? 57))%N.

(** A finite number below 10^21 in magnitude, which [toFixed] prints in
    plain decimal notation. *)
Definition plainDecimal (x : float) : Prop :=
  match Prim2SF x with
  | S754_zero _ => True
  | S754_finite _ m e => atLeast1e21 m e = false
  | _ => False
  end.

(** The number of decimals [formatCost] asks for. *)
Definition costDecimals (cost : float) : nat :=
  if PrimFloat.ltb cost 0.01 then 4%nat else if PrimFloat.ltb cost 1 then 3%nat else 2%nat.

(** [a.localeCompare(b) > 0] does not matter to how many points there
    are; the runs that can give a point to the release-date chart. *)
Definition qualifiesForRelease (modelMap : ModelMap) (r : RunRow.t) : bool :=
  bool_decide (is_Some (releaseDateOf (modelMap !! RunRow.model r))
               /\ is_Some (RunRow.avg_score r)).

(** ** More sample data *)

Definition timedRun (id model : string) (avg_score total_duration_ms : option float)
  : RunRow.t :=
  {| RunRow.id := str id; RunRow.status := str "completed";
     RunRow.dataset := str "d"; RunRow.prompt_version := str "v1";
     RunRow.schema_version := str "s1"; RunRow.harness := str "h";
     RunRow.provider := str "p"; RunRow.model := str model;
     RunRow.total_files := 1; RunRow.completed_files := 1;
     RunRow.avg_score := avg_score; RunRow.total_duration_ms := total_duration_ms;
     RunRow.started_at := str "2025-01-01T00:00:00Z";
     RunRow.finished_at := None;
     RunRow.total_input_tokens := None; RunRow.total_output_tokens := None;
     RunRow.prompt_preview := None |}.

(** Three runs: the second and the third tie on the best score, the
    third has no duration. *)
Definition summaryRuns : list RunRow.t :=
  [timedRun "r1" "a" (Some 0.5%float) (Some 3000%float);
   timedRun "r2" "b" (Some 0.75%float) (Some 1200%float);
   timedRun "r3" "c" (Some 0.75%float) None].

(** Two priced models and a run of each with tokens and a score. *)
Definition pricedCatalog : ModelMap :=
  buildIndex [sampleModel "anthropic/m1" None (Some {| Cost.input := 2; Cost.output := 8 |});
              sampleModel "m2" None (Some {| Cost.input := 1; Cost.output := 4 |})].
Definition pricedRuns : list RunRow.t :=
  [withTokens (Some 1500000%float) (Some 500000%float)
     (sampleRun "r1" "anthropic/m1" (Some 0.5%float));
   withTokens (Some 1000000%float) None (sampleRun "r2" "m2" (Some 0.75%float))].

(** File results for [r1], for a run outside [summaryRuns], and an empty
    list for [r2]. *)
Definition heatScores : list (jsstring * list FileResultRow.t) :=
  [(str "r1", [ {| FileResultRow.file_id := str "b.pdf"; FileResultRow.score := 1 |};
                {| FileResultRow.file_id := str "a.pdf"; FileResultRow.score := 0.5 |};
                {| FileResultRow.file_id := str "b.pdf"; FileResultRow.score := 0.75 |} ]);
   (str "zz", [ {| FileResultRow.file_id := str "c.pdf"; FileResultRow.score := 0.25 |} ]);
   (str "r2", [])].

(** * Properties *)

(** ** The built-ins on known values *)

Example Math_round_values :
  Math_round 2.5 = 3%float /\ Math_round (-2.5) = (-2)%float
  /\ Math_round 0.49999999999999994 = 0%float
  /\ Math_round (0.9 * 100) = 90%float /\ Math_round 89.5 = 90%float.
Proof. repeat split. Qed.

Example toFixed_values :
  toFixed 1.25 1 = str "1.3" /\ toFixed 0.005 4 = str "0.0050"
  /\ toFixed 1.005 2 = str "1.00" /\ toFixed (-50) 1 = str "-50.0"
  /\ toFixed 7 2 = str "7.00" /\ toFixed 1e21 2 = str "1e+21"
  /\ toFixed 1180591620717411303424 3 = str "1.1805916207174113e+21".
Proof. repeat split. Qed.

Example toNumber_values :
  toNumber (str "-50.0") = (-50)%float /\ toNumber (str "33.3") = 33.3%float
  /\ toNumber (str "1e+21") = 1e21%float /\ toNumber (str "0.0") = 0%float.
Proof. repeat split. Qed.

Example split_values :
  split (str "openai/gpt-4") slash = [str "openai"; str "gpt-4"]
  /\ split (str "gpt-4") slash = [str "gpt-4"]
  /\ split (str "a/b/") slash = [str "a"; str "b"; []].
Proof. repeat split. Qed.

Example sort_is_stable :
  sort (fun a b => (b.1 <? a.1)%N) [(2, 1); (1, 1); (2, 2); (1, 2)]%N
  = [(1, 1); (1, 2); (2, 1); (2, 2)]%N.
Proof. reflexivity. Qed.

(** ** Catalog index *)

Section CatalogIndex.
Implicit Types (models : list CatalogModel.t) (k : jsstring).

Lemma withId_none k models :
  Forall (fun m => CatalogModel.id m <> k) models -> withId k models = [].
Proof.
  unfold withId. induction 1 as [|m models Hm _ IH]; [done|].
  by rewrite filter_cons_False.
Qed.

Lemma buildIndex_snoc models m :
  buildIndex (models ++ [m]) = <[CatalogModel.id m := m]> (buildIndex models).
Proof. unfold buildIndex. by rewrite fold_left_app. Qed.

Lemma buildIndex_lookup models k :
  buildIndex models !! k = last (withId k models).
Proof.
  induction models as [|m models IH] using rev_ind.
  - unfold buildIndex; simpl. by rewrite lookup_empty.
  - rewrite buildIndex_snoc. unfold withId. rewrite filter_app.
    destruct (decide (CatalogModel.id m = k)) as [Heq|Hne].
    + rewrite filter_cons_True, filter_nil by done.
      rewrite last_snoc. subst k. by rewrite lookup_insert_eq.
    + rewrite filter_cons_False, filter_nil, app_nil_r by done.
      by rewrite lookup_insert_ne.
Qed.
End CatalogIndex.

(** C9. Building the model index maps every id to the last input entry
    carrying that id (last entry wins), and every id of the input is a
    key of the map. *)
Theorem buildIndex_last_wins (models : list CatalogModel.t) :
  (forall k, buildIndex models !! k = last (withId k models))
  /\ (forall before m after,
        models = before ++ m :: after ->
        Forall (fun m' => CatalogModel.id m' <> CatalogModel.id m) after ->
        buildIndex models !! CatalogModel.id m = Some m)
  /\ (forall m, m ∈ models -> is_Some (buildIndex models !! CatalogModel.id m)).
Proof.
  split; [|split].
  - intros k. apply buildIndex_lookup.
  - intros before m after -> Hafter.
    rewrite buildIndex_lookup. unfold withId at 1.
    rewrite filter_app, filter_cons_True by done.
    fold (withId (CatalogModel.id m) after). rewrite withId_none by done.
    apply last_snoc.
  - intros m Hm. rewrite buildIndex_lookup.
    assert (Hin : m ∈ withId (CatalogModel.id m) models)
      by (apply list_elem_of_filter; auto).
    destruct (withId (CatalogModel.id m) models) as [|x l _] using rev_ind.
    + by apply elem_of_nil in Hin.
    + rewrite last_snoc. eauto.
Qed.

(** ** Resolver and comparison gate *)







(** ** Summary cards *)

Lemma reduce1_nonempty {A} (f : A -> A -> A) (a : list A) :
  a <> [] -> is_Some (reduce1 f a).
Proof. destruct a; [done|]. intros _. simpl. eauto. Qed.

Lemma reduce1_empty {A} (f : A -> A -> A) : reduce1 f [] = None.
Proof. reflexivity. Qed.

(** The unseeded scans throw exactly on the empty list. *)
Lemma SummaryCards_total (runs : list RunRow.t) :
  is_Some (SummaryCards runs) <-> runs <> [].
Proof.
  destruct runs as [|r runs]; simpl.
  - split; [intros [? ?]; discriminate|done].
  - split; [done|]. intros _. unfold SummaryCards. simpl. eauto.
Qed.

(** C10. Whenever [DashboardPage] renders the comparison view, the run
    list it passes down has at least two elements, so the unseeded
    [reduce] scans of [SummaryCards] (and with them [ComparisonCharts])
    return a result: their empty-list error is unreachable. *)
Theorem summary_never_on_empty (localeGt : jsstring -> jsstring -> bool)
  (st : Page.state) (maxHeight : jsstring) (props : Page.comparisonProps) :
  DashboardPage st = Page.Dashboard maxHeight (Some props) ->
  (2 <= length (Page.chart_runs props))%nat
  /\ is_Some (SummaryCards (Page.chart_runs props))
  /\ is_Some (ComparisonCharts localeGt (Page.chart_runs props) (Page.chart_modelMap props)).
Proof.
  unfold DashboardPage.
  generalize (chartRuns (Page.selectedRuns st) (Page.filteredRuns st)); intros cr.
  destruct (Page.loading st); [discriminate|].
  destruct (length (Page.runs st) =? 0)%nat; [discriminate|].
  destruct (Nat.leb_spec 2 (length cr)) as [Hlen|Hlen]; [|discriminate].
  intros [= _ <-]. cbn [Page.chart_runs Page.chart_modelMap].
  assert (Hne : cr <> []) by (intros ->; simpl in Hlen; lia).
  apply SummaryCards_total in Hne as [s Hs].
  split; [done|]. split; [eauto|].
  unfold ComparisonCharts. rewrite Hs. simpl. eauto.
Qed.

(** C10 at a page with two visible rows. *)
Lemma summary_never_on_empty_witness :
  DashboardPage twoRows
  = Page.Dashboard (str "420px")
      (Some {| Page.chart_runs := Page.filteredRuns twoRows; Page.chart_modelMap := ∅ |})
  /\ is_Some (SummaryCards (Page.filteredRuns twoRows)).
Proof.
  split; [reflexivity|].
  apply (summary_never_on_empty unitsGt twoRows (str "420px")
           {| Page.chart_runs := Page.filteredRuns twoRows; Page.chart_modelMap := ∅ |}).
  reflexivity.
Defined.

(** On the empty list the scans do throw. *)
Example SummaryCards_empty : SummaryCards [] = None.
Proof. reflexivity. Qed.

(** ** Cost and cost efficiency *)

Section CostOfRun.
Variable run : RunRow.t.

Lemma noTokens_spec :
  PrimFloat.eqb (inputTokens run) 0 && PrimFloat.eqb (outputTokens run) 0 = false <-> someTokens run.
Proof.
  unfold someTokens.
  destruct (PrimFloat.eqb (inputTokens run) 0), (PrimFloat.eqb (outputTokens run) 0); simpl;
    intuition discriminate.
Qed.

Lemma computeRunCost_Some (model : option CatalogModel.t) (cost : float) :
  computeRunCost run model = Some cost
  <-> exists price, pricing model = Some price /\ someTokens run /\ cost = costAt run price.
Proof.
  unfold computeRunCost. fold (inputTokens run) (outputTokens run).
  destruct (pricing model) as [price|].
  - destruct (PrimFloat.eqb (inputTokens run) 0 && PrimFloat.eqb (outputTokens run) 0) eqn:E.
    + split; [discriminate|]. intros (p & _ & Htok & _).
      apply noTokens_spec in Htok. congruence.
    + split.
      * intros [= <-]. exists price. by rewrite <- noTokens_spec.
      * intros (p & [= <-] & _ & ->). reflexivity.
  - split; [discriminate|]. intros (p & Hp & _). discriminate.
Qed.

Lemma computeRunCost_None (model : option CatalogModel.t) :
  computeRunCost run model = None <-> pricing model = None \/ ~ someTokens run.
Proof.
  unfold computeRunCost. fold (inputTokens run) (outputTokens run).
  destruct (pricing model) as [price|]; [|intuition].
  destruct (PrimFloat.eqb (inputTokens run) 0 && PrimFloat.eqb (outputTokens run) 0) eqn:E.
  - split; [|done]. intros _. right. rewrite <- noTokens_spec. congruence.
  - apply noTokens_spec in E. split; [discriminate|]. intros [?|?]; [discriminate|done].
Qed.

(** [formatCost] shows the placeholder exactly when the cost is unknown. *)
Lemma formatCost_dash (model : option CatalogModel.t) :
  formatCost run model = dash <-> computeRunCost run model = None.
Proof.
  unfold formatCost, computeRunCost.
  destruct (pricing model) as [price|]; [|done].
  destruct (PrimFloat.eqb _ 0 && PrimFloat.eqb _ 0); [done|].
  split; [|discriminate].
  repeat match goal with |- context [if ?b then _ else _] => destruct b end;
    intros [=].
Qed.

End CostOfRun.

Lemma pricing_Some (model : option CatalogModel.t) (price : Cost.t) :
  pricing model = Some price
  <-> exists m, model = Some m /\ CatalogModel.costPer1MTokens m = Some price.
Proof.
  unfold pricing. destruct model as [m|]; simpl.
  - split; [eauto|]. by intros (? & [= <-] & ?).
  - split; [discriminate|]. by intros (? & ? & _).
Qed.

(** C2. The computed cost is defined exactly when the joined model is
    present with a pricing entry and at least one of the run's token
    counts (an absent count counting as 0) is nonzero; when defined it is
    (input/1e6)*price_in + (output/1e6)*price_out; and an unknown cost is
    [null], shown as the placeholder, never the number zero. *)
Theorem cost_defined_iff (run : RunRow.t) (model : option CatalogModel.t) :
  (is_Some (computeRunCost run model)
   <-> (exists m price, model = Some m
          /\ CatalogModel.costPer1MTokens m = Some price)
       /\ someTokens run)
  /\ (forall cost, computeRunCost run model = Some cost ->
        exists m price, model = Some m
          /\ CatalogModel.costPer1MTokens m = Some price
          /\ cost = (inputTokens run / 1000000 * Cost.input price
                     + outputTokens run / 1000000 * Cost.output price)%float)
  /\ (computeRunCost run model = None <-> formatCost run model = dash).
Proof.
  split; [|split].
  - split.
    + intros [cost Hc]. apply computeRunCost_Some in Hc as (price & Hp & Htok & _).
      apply pricing_Some in Hp as (m & ? & ?). eauto.
    + intros [(m & price & Hm & Hp) Htok]. exists (costAt run price).
      apply computeRunCost_Some. exists price. repeat split; [|done].
      apply pricing_Some. eauto.
  - intros cost Hc. apply computeRunCost_Some in Hc as (price & Hp & _ & ->).
    apply pricing_Some in Hp as (m & ? & ?). exists m, price. done.
  - symmetry. apply formatCost_dash.
Qed.

Example cost_of_two_million_tokens :
  let run := withTokens (Some 1500000%float) (Some 500000%float) (sampleRun "r1" "m" None) in
  let model := Some (sampleModel "m" None (Some {| Cost.input := 2; Cost.output := 8 |})) in
  computeRunCost run model = Some 7%float /\ formatCost run model = str "$7.00".
Proof. split; reflexivity. Qed.

Example cost_unknown_without_tokens :
  let run := sampleRun "r1" "m" None in
  let model := Some (sampleModel "m" None (Some {| Cost.input := 2; Cost.output := 8 |})) in
  computeRunCost run model = None /\ formatCost run model = dash.
Proof. split; reflexivity. Qed.

(** A strictly positive number is not [=== 0]. *)
Lemma positive_nonzero (c : float) :
  PrimFloat.ltb 0 c = true -> PrimFloat.eqb c 0 = false.
Proof.
  rewrite FloatAxioms.ltb_spec, FloatAxioms.eqb_spec.
  change (Prim2SF 0) with (S754_zero false).
  destruct (Prim2SF c) as [s|s| |s m e]; try destruct s; simpl;
    try discriminate; reflexivity.
Qed.

Section EfficiencyOfRun.
Variables (modelMap : ModelMap) (r : RunRow.t) (i : nat).

Let cost := computeRunCost r (modelMap !! RunRow.model r).

Lemma efficiencyEntry_Some (e : Efficiency.t) :
  efficiencyEntry modelMap r i = Some e
  <-> exists c avg, cost = Some c /\ PrimFloat.eqb c 0 = false
        /\ RunRow.avg_score r = Some avg
        /\ e = {| Efficiency.name := getLabel r;
                  Efficiency.efficiency := toNumber (toFixed (Math_round (avg * 100) / c) 1);
                  Efficiency.fill := chartColor i |}.
Proof.
  unfold efficiencyEntry. subst cost.
  destruct (computeRunCost r _) as [c|].
  - destruct (RunRow.avg_score r) as [avg|].
    + destruct (PrimFloat.eqb c 0) eqn:E.
      * split; [discriminate|]. intros (c' & avg' & [= <-] & ? & _). congruence.
      * split.
        -- intros [= <-]. exists c, avg. done.
        -- intros (c' & avg' & [= <-] & _ & [= <-] & ->). done.
    + split; [discriminate|]. intros (c' & avg' & _ & _ & ? & _). discriminate.
  - split; [discriminate|]. intros (c' & avg' & ? & _). discriminate.
Qed.

End EfficiencyOfRun.

(** C3 (the claim as amended). Cost efficiency is defined exactly when the
    cost is defined and is not zero and the run's average score is
    defined (so it is defined for every strictly positive cost, and
    undefined for a zero cost); when defined it is
    round(score_pct / cost, 1) with score_pct = round(avg_score * 100). *)
Theorem efficiency_defined_iff (modelMap : ModelMap) (r : RunRow.t) (i : nat) :
  let cost := computeRunCost r (modelMap !! RunRow.model r) in
  (is_Some (efficiencyEntry modelMap r i)
   <-> exists c avg, cost = Some c /\ PrimFloat.eqb c 0 = false
         /\ RunRow.avg_score r = Some avg)
  /\ (forall e, efficiencyEntry modelMap r i = Some e ->
        exists c avg, cost = Some c /\ RunRow.avg_score r = Some avg
          /\ Efficiency.efficiency e
             = toNumber (toFixed (Math_round (avg * 100) / c) 1))
  /\ (forall c avg, cost = Some c -> PrimFloat.ltb 0 c = true ->
        RunRow.avg_score r = Some avg -> is_Some (efficiencyEntry modelMap r i)).
Proof.
  intros cost.
  assert (Hdef : is_Some (efficiencyEntry modelMap r i)
                 <-> exists c avg, cost = Some c /\ PrimFloat.eqb c 0 = false
                       /\ RunRow.avg_score r = Some avg).
  { split.
    - intros [e He]. apply efficiencyEntry_Some in He as (c & avg & ? & ? & ? & _).
      eauto.
    - intros (c & avg & Hc & Hz & Havg). eexists.
      apply efficiencyEntry_Some. exists c, avg. eauto. }
  split; [exact Hdef|split].
  - intros e He. apply efficiencyEntry_Some in He as (c & avg & ? & _ & ? & ->).
    exists c, avg. done.
  - intros c avg Hc Hpos Havg. apply Hdef. exists c, avg.
    split; [done|]. split; [by apply positive_nonzero|done].
Qed.

(** C3 (the claim as stated fails). A cost that is defined and negative,
    hence not strictly positive, still yields an efficiency. *)
Lemma efficiency_of_negative_cost :
  let modelMap := buildIndex [negativePrice] in
  computeRunCost negativeCostRun (modelMap !! RunRow.model negativeCostRun)
  = Some (-1)%float
  /\ PrimFloat.ltb 0 (-1) = false
  /\ Efficiency.efficiency <$> efficiencyEntry modelMap negativeCostRun 0
     = Some (-50)%float.
Proof. vm_compute. repeat split. Qed.

(** ** Score by release date *)

(** The comparison of the loop sets a fraction against a percentage. *)
Example fraction_against_percentage :
  PrimFloat.ltb (Math_round (0.5 * 100)) 0.9 = false
  /\ Math_round (0.5 * 100) = 50%float /\ Math_round (0.9 * 100) = 90%float.
Proof. repeat split. Qed.

(** C4 (the code at the failing input). With scores 0.5 then 0.9 for the
    same model id, the chart keeps the first run, at 50, and not the
    maximum, 90: the stored score is a percentage and the candidate a
    fraction, so the second run never replaces the first.  (On ISO
    dates the host collation is the code-unit order.) *)
Theorem release_chart_keeps_first_not_best :
  PerformanceByReleaseDateChart unitsGt releaseRuns releaseCatalog
  = Some [ {| ReleasePoint.score := 50; ReleasePoint.releaseDate := str "2024-01-01";
              ReleasePoint.name := str "m1" |};
           {| ReleasePoint.score := 70; ReleasePoint.releaseDate := str "2024-06-01";
              ReleasePoint.name := str "m2" |} ].
Proof. vm_compute. reflexivity. Qed.

(** ** The dataset loader *)

Module LoaderFacts.
Import Loader.

(** Once the cache is filled, a call returns it without a fetch. *)
Lemma enter_cached (s : state) (d : StaticData.t) :
  cached s = Some d ->
  fetches (loadData_enter s) = fetches s
  /\ writes (loadData_enter s) = writes s
  /\ cached (loadData_enter s) = Some d.
Proof. intros H. unfold loadData_enter. rewrite H. done. Qed.

(** Before that, every call fetches. *)
Lemma enter_uncached (s : state) :
  cached s = None -> fetches (loadData_enter s) = S (fetches s).
Proof. intros H. unfold loadData_enter. by rewrite H. Qed.

(** Calls one after the other, each answered before the next: one fetch. *)
Example sequential_calls (d : StaticData.t) :
  let s := run [Call; Respond d; Call; Call] in
  fetches s = 1%nat /\ writes s = 1%nat /\ returned s = [d; d; d].
Proof. repeat split. Qed.

End LoaderFacts.

(** C5 (the code at the failing input). Two calls issued before the first
    response, as [getRuns] and [getCatalog] are in the mount effect of
    [DashboardPage]: both find [cached] empty, so there are two fetches
    and two writes of the cache. *)
Theorem concurrent_calls_fetch_twice :
  let s := Loader.run [Loader.Call; Loader.Call;
                       Loader.Respond emptyData; Loader.Respond emptyData] in
  Loader.fetches s = 2%nat /\ Loader.writes s = 2%nat
  /\ Loader.returned s = [emptyData; emptyData].
Proof. repeat split. Qed.

(** ** Labels *)

Lemma split_nonempty (s : jsstring) (c : N) : split s c <> [].
Proof.
  destruct s as [|u s]; simpl; [done|].
  destruct (N.eqb u c); [done|]. by destruct (split s c).
Qed.

Lemma join_split (s : jsstring) (c : N) : join c (split s c) = s.
Proof.
  induction s as [|u s IH]; [done|]. simpl.
  pose proof (split_nonempty s c) as Hne.
  destruct (N.eqb_spec u c) as [->|_].
  - destruct (split s c); [done|]. simpl in *. by rewrite IH.
  - destruct (split s c) as [|seg [|seg' segs]]; [done| |]; simpl in *; by rewrite <- IH.
Qed.

Lemma split_segments (s : jsstring) (c : N) : Forall (fun seg => c ∉ seg) (split s c).
Proof.
  induction s as [|u s IH]; simpl.
  - repeat constructor. apply not_elem_of_nil.
  - destruct (N.eqb_spec u c) as [->|Hne].
    + constructor; [apply not_elem_of_nil|done].
    + destruct (split s c) as [|seg segs]; [repeat constructor|].
      * intros [?|[]%elem_of_nil]%elem_of_cons. congruence.
      * inversion IH; subst. constructor; [|done].
        intros [?|?]%elem_of_cons; [congruence|done].
Qed.

Lemma join_last (c : N) (segs : list jsstring) (seg : jsstring) :
  last segs = Some seg ->
  join c segs = seg \/ exists before, join c segs = before ++ c :: seg.
Proof.
  induction segs as [|seg0 segs IH]; [done|].
  destruct segs as [|seg1 segs].
  - intros [= ->]. by left.
  - rewrite last_cons_cons. intros Hlast. right.
    destruct (IH Hlast) as [Heq|[before Heq]].
    + exists seg0. change (join c (seg0 :: seg1 :: segs))
        with (seg0 ++ c :: join c (seg1 :: segs)). by rewrite Heq.
    + exists (seg0 ++ c :: before).
      change (join c (seg0 :: seg1 :: segs))
        with (seg0 ++ c :: join c (seg1 :: segs)).
      rewrite Heq. by rewrite <- app_assoc.
Qed.

Lemma includes_false (s : jsstring) (c : N) : includes s c = false -> c ∉ s.
Proof.
  unfold includes. intros H Hin.
  assert (existsb (N.eqb c) s = true); [|congruence].
  apply existsb_exists. exists c. split; [by apply list_elem_of_In|apply N.eqb_refl].
Qed.

(** The model id without its provider prefix: the part after the last
    slash, the whole id when it has none. *)
Lemma strippedModel_spec (run : RunRow.t) :
  (slash ∉ strippedModel run)
  /\ (RunRow.model run = strippedModel run
      \/ exists prefix, RunRow.model run = prefix ++ slash :: strippedModel run).
Proof.
  unfold strippedModel.
  destruct (includes (RunRow.model run) slash) eqn:E.
  - unfold pop.
    destruct (last (split (RunRow.model run) slash)) as [seg|] eqn:Hlast.
    + simpl. split.
      * pose proof (split_segments (RunRow.model run) slash) as Hall.
        rewrite Forall_forall in Hall. apply Hall.
        apply last_Some in Hlast as [l' ->]. apply elem_of_app. right.
        apply list_elem_of_singleton. done.
      * apply (join_last slash) in Hlast. by rewrite join_split in Hlast.
    + apply last_None in Hlast. by apply split_nonempty in Hlast.
  - split; [by apply includes_false|by left].
Qed.

(** An id that fits is shown whole; a longer one is cut to its first 26
    units followed by three dots. *)
Lemma getLabel_cases (run : RunRow.t) :
  ((length (strippedModel run) <= 28)%nat -> getLabel run = strippedModel run)
  /\ ((28 < length (strippedModel run))%nat ->
      getLabel run = take 26 (strippedModel run) ++ ellipsis
      /\ length (getLabel run) = 29%nat).
Proof.
  unfold getLabel.
  destruct (Nat.ltb_spec 28 (length (strippedModel run))) as [H|H].
  - split; [lia|]. intros _. split; [done|].
    rewrite length_app, length_take. change (length ellipsis) with 3%nat. lia.
  - split; [done|lia].
Qed.

(** C6 (the code at the failing input). The stripped id has 29
    characters, more than 28, and the label, 26 characters and three
    dots, has 29 as well: it is not within 28. *)
Theorem label_of_29_characters :
  strippedModel longModelRun = str "abcdefghijklmnopqrstuvwxyz012"
  /\ length (strippedModel longModelRun) = 29%nat
  /\ getLabel longModelRun = str "abcdefghijklmnopqrstuvwxyz..."
  /\ length (getLabel longModelRun) = 29%nat.
Proof. repeat split. Qed.

(** ** Prompt preview *)

Lemma dropWhile_length {A} (p : A -> bool) (l : list A) :
  (length (dropWhile p l) <= length l)%nat.
Proof. induction l as [|x l IH]; simpl; [lia|]. destruct (p x); simpl; lia. Qed.

Lemma trimEnd_length (s : jsstring) : (length (trimEnd s) <= length s)%nat.
Proof.
  unfold trimEnd. rewrite length_rev.
  etransitivity; [apply dropWhile_length|]. by rewrite length_rev.
Qed.

(** [trimEnd] keeps a prefix and drops only white space. *)
Lemma dropWhile_suffix {A} (p : A -> bool) (l : list A) :
  exists dropped, l = dropped ++ dropWhile p l /\ forallb p dropped = true.
Proof.
  induction l as [|x l (dropped & IH & Hall)]; simpl.
  - by exists [].
  - destruct (p x) eqn:E.
    + exists (x :: dropped). simpl. rewrite E, Hall. split; [congruence|done].
    + by exists [].
Qed.

Lemma trimEnd_prefix (s : jsstring) :
  exists spaces, s = trimEnd s ++ spaces /\ forallb isWhiteSpace spaces = true.
Proof.
  unfold trimEnd.
  destruct (dropWhile_suffix isWhiteSpace (rev s)) as (dropped & Heq & Hall).
  exists (rev dropped). split.
  - rewrite <- rev_app_distr, <- Heq. by rewrite rev_involutive.
  - rewrite forallb_forall in *. intros u Hu. apply Hall. by apply in_rev.
Qed.

Lemma slice0_length (s : jsstring) (max : Z) :
  0 <= max -> Z.of_nat (length (slice0 s max)) <= max.
Proof.
  intros H. unfold slice0. rewrite length_take.
  destruct (Z.ltb_spec max 0); lia.
Qed.

Lemma slice0_prefix (s : jsstring) (max : Z) : slice0 s max `prefix_of` s.
Proof. unfold slice0. apply prefix_take. Qed.

(** C7 (the claim as amended). A missing or empty text is shown as the
    placeholder. A non-empty text no longer than [max] is returned
    unchanged. A longer one becomes a prefix of at most [max] characters
    (for [max >= 0]), without trailing white space, followed by the
    three-character marker "...": the result always ends with the marker
    and has at most [max + 3] characters. *)
Theorem truncatePrompt_cases (text : jsstring) (max : Z) :
  text <> [] ->
  truncatePrompt None max = dash
  /\ truncatePrompt (Some []) max = dash
  /\ (Z.of_nat (length text) <= max -> truncatePrompt (Some text) max = text)
  /\ (max < Z.of_nat (length text) ->
      exists kept,
        truncatePrompt (Some text) max = kept ++ ellipsis
        /\ kept = trimEnd (slice0 text max)
        /\ kept `prefix_of` text
        /\ (0 <= max ->
            Z.of_nat (length kept) <= max
            /\ Z.of_nat (length (truncatePrompt (Some text) max)) <= max + 3)).
Proof.
  intros Hne. split; [done|]. split; [done|].
  unfold truncatePrompt. destruct text as [|u text]; [done|].
  destruct (Z.leb_spec (Z.of_nat (length (u :: text))) max) as [Hle|Hgt].
  - split; [done|lia].
  - split; [lia|]. intros _. eexists. split; [reflexivity|]. split; [reflexivity|].
    assert (Hkept : (length (trimEnd (slice0 (u :: text) max))
                     <= length (slice0 (u :: text) max))%nat)
      by apply trimEnd_length.
    split.
    + destruct (trimEnd_prefix (slice0 (u :: text) max)) as (spaces & Heq & _).
      etransitivity; [|apply slice0_prefix]. exists spaces. exact Heq.
    + intros Hmax. pose proof (slice0_length (u :: text) max Hmax).
      rewrite length_app. change (length ellipsis) with 3%nat. lia.
Qed.

(** C7 at a prompt of 29 characters and [max = 11]. *)
Lemma truncatePrompt_cases_witness :
  str "hello world, this is a prompt" <> []
  /\ truncatePrompt (Some (str "hello world, this is a prompt")) 11
     = str "hello world...".
Proof.
  split; [discriminate|].
  destruct (truncatePrompt_cases (str "hello world, this is a prompt") 11)
    as (_ & _ & _ & Hlong); [discriminate|].
  destruct Hlong as (kept & -> & -> & _); reflexivity.
Defined.

(** C7 (the claim as stated fails). The empty text, of length 0 <= 72, is
    not returned unchanged; and a text of 73 characters is turned into
    one of 75, more than [max = 72]. *)
Lemma truncatePrompt_exceeds_max :
  truncatePrompt (Some []) 72 <> []
  /\ length (repeat 97%N 73) = 73%nat
  /\ truncatePrompt (Some (repeat 97%N 73)) 72 = repeat 97%N 72 ++ ellipsis
  /\ length (truncatePrompt (Some (repeat 97%N 73)) 72) = 75%nat.
Proof. split; [discriminate|]. vm_compute. repeat split. Qed.

(** ** Column filters *)

Section Distinct.
Implicit Types (a seen : list jsstring) (x : jsstring).

Let add seen x := if bool_decide (x ∈ seen) then seen else seen ++ [x].

Lemma distinct_from_elem seen a x :
  x ∈ fold_left add a seen <-> x ∈ seen \/ x ∈ a.
Proof.
  revert seen. induction a as [|y a IH]; intros seen; simpl.
  - split; [by left|]. intros [?|[]%elem_of_nil]. done.
  - rewrite IH. unfold add. rewrite elem_of_cons. case_bool_decide as Hy.
    + split; [intros [?|?]; auto|]. intros [?|[->|?]]; auto.
    + rewrite elem_of_app, list_elem_of_singleton. tauto.
Qed.

Lemma distinct_from_NoDup seen a : NoDup seen -> NoDup (fold_left add a seen).
Proof.
  revert seen. induction a as [|y a IH]; intros seen Hnd; simpl; [done|].
  apply IH. unfold add. case_bool_decide as Hy; [done|].
  apply NoDup_app. split; [done|]. split; [|apply NoDup_singleton].
  intros x Hx ->%list_elem_of_singleton. done.
Qed.

Lemma distinct_elem a x : x ∈ distinct a <-> x ∈ a.
Proof.
  unfold distinct. fold add. rewrite distinct_from_elem.
  split; [intros [[]%elem_of_nil|?]; done|by right].
Qed.

Lemma distinct_NoDup a : NoDup (distinct a).
Proof. apply distinct_from_NoDup, NoDup_nil_2. Qed.

(** At most one distinct value: all values are the same. *)
Lemma distinct_at_most_one a :
  (length (distinct a) <= 1)%nat <-> forall x y, x ∈ a -> y ∈ a -> x = y.
Proof.
  split.
  - intros Hlen x y Hx%distinct_elem Hy%distinct_elem.
    destruct (distinct a) as [|z [|z' l]]; simpl in Hlen; [|..|lia].
    + by apply elem_of_nil in Hx.
    + apply list_elem_of_singleton in Hx, Hy. congruence.
  - intros Hall. pose proof (distinct_NoDup a) as Hnd.
    destruct (distinct a) as [|z [|z' l]] eqn:E; simpl; [lia..|].
    exfalso. apply NoDup_cons in Hnd as [Hz _]. apply Hz.
    assert (z = z') as ->; [|left].
    apply Hall; apply distinct_elem; rewrite E; set_solver.
Qed.
End Distinct.

Lemma sortInsert_length {A} (gt : A -> A -> bool) (x : A) (l : list A) :
  length (sortInsert gt x l) = S (length l).
Proof. induction l as [|y l IH]; simpl; [done|]. destruct (gt x y); simpl; lia. Qed.

Lemma sort_length {A} (gt : A -> A -> bool) (a : list A) :
  length (sort gt a) = length a.
Proof.
  induction a as [|x a IH]; simpl; [done|]. by rewrite sortInsert_length, IH.
Qed.

Lemma sortInsert_Permutation {A} (gt : A -> A -> bool) (x : A) (l : list A) :
  sortInsert gt x l ≡ₚ x :: l.
Proof.
  induction l as [|y l IH]; simpl; [done|]. destruct (gt x y); [|done].
  rewrite IH. apply Permutation_swap.
Qed.

Lemma sort_Permutation {A} (gt : A -> A -> bool) (a : list A) : sort gt a ≡ₚ a.
Proof.
  induction a as [|x a IH]; simpl; [done|]. by rewrite sortInsert_Permutation, IH.
Qed.

(** The options of the control are the distinct stringified cell values. *)
Lemma facetValues_elem (cells : list (option jsstring)) (v : jsstring) :
  v ∈ facetValues cells <-> exists cell, cell ∈ cells /\ v = default [] cell.
Proof.
  unfold facetValues. rewrite sort_Permutation, distinct_elem, list_elem_of_fmap.
  split; intros (cell & ? & ?); eauto.
Qed.

Lemma facetValues_NoDup (cells : list (option jsstring)) : NoDup (facetValues cells).
Proof. unfold facetValues. rewrite sort_Permutation. apply distinct_NoDup. Qed.

(** C8. The filter control of a column renders nothing exactly when the
    faceted set of distinct stringified values has at most one element
    (all cells stringify to the same value); when it is rendered its
    first option is "All" with the empty value, and choosing it passes
    [undefined] to [setFilterValue], which leaves the filter state as it
    is with the column's term removed. *)
Theorem ColumnFilter_suppressed (cells : list (option jsstring))
  (columnFilterValue : option jsstring) :
  (ColumnFilter cells columnFilterValue = None
   <-> (length (facetValues cells) <= 1)%nat)
  /\ ((length (facetValues cells) <= 1)%nat
      <-> forall x y, x ∈ cells -> y ∈ cells -> default [] x = default [] y)
  /\ (forall select, ColumnFilter cells columnFilterValue = Some select ->
        head (Select.options select) = Some ([], str "All"))
  /\ onChangeValue [] = None
  /\ (forall column old,
        setFilterValue column (onChangeValue []) old
        = filter (fun term => term.1 <> column) old
        /\ column ∉ map fst (setFilterValue column (onChangeValue []) old)).
Proof.
  split; [|split; [|split; [|split]]].
  - unfold ColumnFilter.
    destruct (Nat.leb_spec (length (facetValues cells)) 1); split; try done; lia.
  - unfold facetValues. rewrite sort_length, distinct_at_most_one. split.
    + intros H x y Hx Hy. apply H; apply list_elem_of_fmap; eauto.
    + intros H x y (cx & -> & Hx)%list_elem_of_fmap (cy & -> & Hy)%list_elem_of_fmap.
      by apply H.
  - unfold ColumnFilter. intros select.
    destruct (length (facetValues cells) <=? 1)%nat; [done|]. by intros [= <-].
  - reflexivity.
  - intros column old. split; [reflexivity|]. simpl.
    intros ((k & v) & -> & [Hne _]%list_elem_of_filter)%list_elem_of_fmap. done.
Qed.

Example ColumnFilter_two_values :
  ColumnFilter [Some (str "openai"); None; Some (str "anthropic"); Some (str "openai")] None
  = Some {| Select.value := [];
            Select.options := [([], str "All"); ([], []); (str "anthropic", str "anthropic");
                               (str "openai", str "openai")] |}.
Proof. reflexivity. Qed.

Example ColumnFilter_constant :
  ColumnFilter [Some (str "openai"); Some (str "openai")] (Some (str "openai")) = None.
Proof. reflexivity. Qed.

(** ** What the release-date loop does keep *)

Section OrderedMapFacts.
Context {V : Type}.
Implicit Types (m : OrderedMap V) (k : jsstring) (v : V).

Lemma Map_get_None m k : Map_get m k = None <-> k ∉ map fst m.
Proof.
  induction m as [|[k' v'] m IH]; simpl.
  - split; [intros _; apply not_elem_of_nil|done].
  - destruct (decide (k' = k)) as [->|Hne].
    + rewrite bool_decide_eq_true_2 by done.
      split; [discriminate|]. intros []. apply list_elem_of_here.
    + rewrite bool_decide_eq_false_2 by done.
      rewrite IH, not_elem_of_cons. split; [by split|by intros [_ ?]].
Qed.

Lemma Map_set_keys m k v :
  map fst (Map_set m k v)
  = if bool_decide (k ∈ map fst m) then map fst m else map fst m ++ [k].
Proof.
  induction m as [|[k' v'] m IH]; simpl; [done|].
  destruct (decide (k' = k)) as [->|Hne].
  - rewrite (bool_decide_eq_true_2 (k = k)) by done.
    rewrite bool_decide_eq_true_2 by apply list_elem_of_here. done.
  - rewrite (bool_decide_eq_false_2 (k' = k)) by done. simpl. rewrite IH.
    destruct (decide (k ∈ map fst m)) as [Hin|Hin].
    + rewrite !bool_decide_eq_true_2; [done|by apply list_elem_of_further|done].
    + rewrite !bool_decide_eq_false_2; [done| |done].
      intros [?|?]%elem_of_cons; congruence.
Qed.

Lemma Map_set_NoDup m k v :
  NoDup (map fst m) -> NoDup (map fst (Map_set m k v)).
Proof.
  intros Hnd. rewrite Map_set_keys. case_bool_decide as Hin; [done|].
  apply NoDup_app. split; [done|]. split; [|apply NoDup_singleton].
  intros x Hx ->%list_elem_of_singleton. done.
Qed.
End OrderedMapFacts.

(** The loop keeps one point per model id, whatever the scores. *)
Lemma bestByModel_one_point_per_model (runs : list RunRow.t) (modelMap : ModelMap) :
  NoDup (map fst (bestByModel runs modelMap)).
Proof.
  unfold bestByModel.
  assert (H : forall best, NoDup (map fst best) ->
                NoDup (map fst (fold_left (bestByModel_step modelMap) runs best))).
  { induction runs as [|r runs IH]; intros best Hnd; simpl; [done|].
    apply IH. unfold bestByModel_step.
    destruct (modelMap !! RunRow.model r); [|done].
    destruct (releaseDateOf _); [|done].
    destruct (RunRow.avg_score r); [|done].
    destruct (Map_get best (RunRow.model r)).
    - destruct (PrimFloat.ltb _ _); [by apply Map_set_NoDup|done].
    - by apply Map_set_NoDup. }
  apply H, NoDup_nil_2.
Qed.

(** ** Calls of the loader before the first response *)

(** Every call issued while the cache is empty starts a fetch of its own:
    [n] calls before the first response are [n] fetches in flight. *)
Lemma calls_before_first_response (n : nat) :
  let s := Loader.run (repeat Loader.Call n) in
  Loader.cached s = None /\ Loader.fetches s = n /\ Loader.inFlight s = n
  /\ Loader.writes s = 0%nat.
Proof.
  unfold Loader.run.
  induction n as [|n IH]; [done|].
  replace (repeat Loader.Call (S n)) with (repeat Loader.Call n ++ [Loader.Call])
    by (symmetry; apply repeat_cons).
  rewrite fold_left_app. simpl in *. destruct IH as (Hc & Hf & Hi & Hw).
  unfold Loader.loadData_enter. rewrite Hc. simpl. by rewrite Hf, Hi, Hw.
Qed.

(** Each response to a suspended call writes the cache. *)
Lemma responses_write (d : StaticData.t) (k : nat) (s : Loader.state) :
  Loader.inFlight s = k ->
  let s' := fold_left Loader.step (repeat (Loader.Respond d) k) s in
  Loader.fetches s' = Loader.fetches s
  /\ Loader.writes s' = (Loader.writes s + k)%nat.
Proof.
  revert s. induction k as [|k IH]; intros s Hk; simpl; [split; [done|lia]|].
  unfold Loader.loadData_resume. rewrite Hk.
  destruct (IH {| Loader.cached := Some d; Loader.fetches := Loader.fetches s;
                  Loader.writes := S (Loader.writes s); Loader.inFlight := k;
                  Loader.returned := Loader.returned s ++ [d] |} eq_refl) as [-> ->].
  simpl. split; [done|lia].
Qed.

(** So [n] calls before the first response cost [n] fetches and [n]
    writes of the cache. *)
Lemma concurrent_calls_fetch_each (n : nat) (d : StaticData.t) :
  let s := Loader.run (repeat Loader.Call n ++ repeat (Loader.Respond d) n) in
  Loader.fetches s = n /\ Loader.writes s = n.
Proof.
  unfold Loader.run. rewrite fold_left_app.
  destruct (calls_before_first_response n) as (_ & Hf & Hi & Hw).
  unfold Loader.run in Hf, Hi, Hw.
  destruct (responses_write d n _ Hi) as [-> ->].
  rewrite Hf, Hw. done.
Qed.

(** * Further properties of the code *)

(** ** Theme *)

(** X1. The theme written by the effect is the theme the next page load
    starts with, whatever the preference of the system; without a stored
    value, or with a stored value that is neither "light" nor "dark", the
    page starts with the preference of the system. *)
Theorem theme_persists (theme : Theme.t) (e : Theme.env) :
  Theme.initial (Theme.effect theme e) = theme
  /\ (forall stored,
        Theme.localStorage e !! Theme.key = stored ->
        (forall t, stored <> Some (Theme.name t)) ->
        Theme.initial e = if Theme.prefersDark e then Theme.dark else Theme.light).
Proof.
  split.
  - unfold Theme.initial, Theme.effect. cbn [Theme.localStorage Theme.prefersDark].
    rewrite lookup_insert_eq. by destruct theme.
  - intros stored Hstored Hother. unfold Theme.initial. rewrite Hstored.
    destruct stored as [v|]; [|done].
    repeat case_bool_decide; subst; try done.
    + by destruct (Hother Theme.dark).
    + by destruct (Hother Theme.light).
Qed.

(** X2. After the effect the document carries the class "dark" exactly
    when the theme is dark, whatever classes it had before, and the
    other classes are untouched; toggling changes the theme, and
    toggling twice gives it back. *)
Theorem theme_class_follows (theme : Theme.t) (e : Theme.env) :
  (str "dark" ∈ Theme.classList (Theme.effect theme e) <-> theme = Theme.dark)
  /\ (forall c, c <> str "dark" ->
        (c ∈ Theme.classList (Theme.effect theme e) <-> c ∈ Theme.classList e))
  /\ Theme.toggle (Theme.toggle theme) = theme
  /\ Theme.toggle theme <> theme.
Proof.
  destruct theme; cbn [Theme.effect Theme.classList Theme.toggle];
    repeat split; try done; try set_solver.
Qed.

(** ** Provider slugs *)

Lemma indexOf_first (before after : jsstring) (c : N) :
  c ∉ before -> indexOf (before ++ c :: after) c = Z.of_nat (length before).
Proof.
  induction before as [|u before IH]; intros Hc; simpl.
  - by rewrite N.eqb_refl.
  - apply not_elem_of_cons in Hc as [Hne Hc].
    destruct (N.eqb_spec u c) as [->|_]; [done|].
    rewrite IH by done. destruct (Z.ltb_spec (Z.of_nat (length before)) 0); lia.
Qed.

Lemma indexOf_absent (s : jsstring) (c : N) : c ∉ s -> indexOf s c = -1.
Proof.
  induction s as [|u s IH]; intros Hc; simpl; [done|].
  apply not_elem_of_cons in Hc as [Hne Hc].
  destruct (N.eqb_spec u c) as [->|_]; [done|]. by rewrite IH.
Qed.

(** X3. For a model id [prefix/rest] whose non-empty [prefix] has no
    slash, the provider slug is that prefix, and the logo URL is built
    from it; for an id without a slash, or with a leading slash, the slug
    is the model's [provider] field. *)
Theorem getProviderSlug_cases (model : CatalogModel.t) :
  (forall prefix rest,
      CatalogModel.id model = prefix ++ slash :: rest ->
      slash ∉ prefix -> prefix <> [] ->
      getProviderSlug model = prefix
      /\ getModelLogoUrl model
         = str "https://models.dev/logos/" ++ prefix ++ str ".svg")
  /\ (slash ∉ CatalogModel.id model ->
      getProviderSlug model = CatalogModel.provider model)
  /\ (forall rest, CatalogModel.id model = slash :: rest ->
      getProviderSlug model = CatalogModel.provider model).
Proof.
  unfold getModelLogoUrl, getProviderSlug. split; [|split].
  - intros prefix rest Hid Hno Hne. rewrite Hid, indexOf_first by done.
    assert (0 < Z.of_nat (length prefix)) by (destruct prefix; simpl; [done|lia]).
    destruct (Z.ltb_spec 0 (Z.of_nat (length prefix))); [|lia].
    assert (Hslice : slice0 (prefix ++ slash :: rest) (Z.of_nat (length prefix)) = prefix).
    { unfold slice0. destruct (Z.ltb_spec (Z.of_nat (length prefix)) 0); [lia|].
      rewrite length_app, Z.min_l by (simpl; lia).
      rewrite Nat2Z.id. by rewrite take_app_length. }
    rewrite Hslice. split; [done|].
    reflexivity.
  - intros Hno. by rewrite indexOf_absent.
  - intros rest ->. reflexivity.
Qed.

(** ** The order of numbers *)

Section SpecOrder.
Implicit Types x y z : spec_float.

Ltac order_cases :=
  repeat match goal with
         | |- context [Pos.compare_cont Eq ?a ?b] =>
             change (Pos.compare_cont Eq a b) with (Pos.compare a b)
         | H : context [Pos.compare_cont Eq ?a ?b] |- _ =>
             change (Pos.compare_cont Eq a b) with (Pos.compare a b) in H
         end;
  repeat match goal with
         | |- context [Z.compare ?a ?b] => destruct (Z.compare_spec a b)
         | H : context [Z.compare ?a ?b] |- _ => destruct (Z.compare_spec a b)
         | |- context [Pos.compare ?a ?b] => destruct (Pos.compare_spec a b)
         | H : context [Pos.compare ?a ?b] |- _ => destruct (Pos.compare_spec a b)
         end;
  simpl in *; try reflexivity; try discriminate; try lia.

Lemma SFleb_refl x : x <> S754_nan -> SFleb x x = true.
Proof.
  unfold SFleb. destruct x as [s|s| |s m e]; try destruct s; simpl; try done.
  all: intros _; order_cases.
Qed.

Lemma SFleb_total x y :
  x <> S754_nan -> y <> S754_nan -> SFleb x y = false -> SFleb y x = true.
Proof.
  unfold SFleb.
  destruct x as [s|s| |s m e], y as [s'|s'| |s' m' e'];
    try destruct s; try destruct s'; simpl; try done.
  all: intros _ _; order_cases.
Qed.

Lemma SFleb_trans x y z : SFleb x y = true -> SFleb y z = true -> SFleb x z = true.
Proof.
  unfold SFleb.
  destruct x as [s|s| |s m e], y as [s'|s'| |s' m' e'], z as [s''|s''| |s'' m'' e''];
    try destruct s; try destruct s'; try destruct s''; simpl; try done.
  all: order_cases.
Qed.
End SpecOrder.

Lemma isNaN_false (x : float) : isNaN x = false <-> Prim2SF x <> S754_nan.
Proof.
  unfold isNaN. rewrite negb_false_iff, FloatAxioms.eqb_spec. unfold SFeqb. split.
  - intros H Hnan. rewrite Hnan in H. discriminate.
  - intros H. pose proof (SFleb_refl _ H) as Hle. unfold SFleb in Hle.
    destruct (Prim2SF x) as [s|s| |s m e]; try destruct s; simpl in *; try done.
    all: destruct (Z.compare_spec e e); try lia;
      change (Pos.compare_cont Eq m m) with (Pos.compare m m);
      by rewrite Pos.compare_refl.
Qed.

Lemma leb_refl (x : float) : isNaN x = false -> PrimFloat.leb x x = true.
Proof. rewrite isNaN_false, FloatAxioms.leb_spec. apply SFleb_refl. Qed.

Lemma leb_total (x y : float) :
  isNaN x = false -> isNaN y = false ->
  PrimFloat.leb x y = false -> PrimFloat.leb y x = true.
Proof. rewrite !isNaN_false, !FloatAxioms.leb_spec. apply SFleb_total. Qed.

Lemma leb_trans (x y z : float) :
  PrimFloat.leb x y = true -> PrimFloat.leb y z = true -> PrimFloat.leb x z = true.
Proof. rewrite !FloatAxioms.leb_spec. apply SFleb_trans. Qed.

(** ** The scans of the summary cards *)

Section Scan.
Context {A : Type} (R : A -> A -> bool) (P : A -> Prop).
Hypothesis R_refl : forall a, P a -> R a a = true.
Hypothesis R_total : forall a b, P a -> P b -> R a b = false -> R b a = true.
Hypothesis R_trans : forall a b c, R a b = true -> R b c = true -> R a c = true.

(** A scan that keeps its candidate [a] against [b] when [R a b] ends on
    the first element that [R] relates to every element. *)
Lemma scan_first_best (x : A) (l : list A) :
  Forall P (x :: l) ->
  exists before after,
    x :: l = before ++ fold_left (fun a b => if R a b then a else b) l x :: after
    /\ Forall (fun y => R y (fold_left (fun a b => if R a b then a else b) l x) = false)
         before
    /\ Forall (fun y => R (fold_left (fun a b => if R a b then a else b) l x) y = true)
         (x :: l).
Proof.
  induction l as [|b l IH] using rev_ind; intros HP.
  - exists [], []. simpl. split; [done|]. split; [constructor|].
    constructor; [|constructor]. apply R_refl. by inversion HP.
  - rewrite app_comm_cons in HP. apply Forall_app in HP as [HPl HPb].
    rewrite Forall_singleton in HPb.
    destruct (IH HPl) as (before & after & Heq & Hbefore & Hall).
    rewrite fold_left_app. simpl.
    set (r := fold_left (fun a b => if R a b then a else b) l x) in *.
    assert (HPr : P r).
    { rewrite Forall_forall in HPl. apply HPl. rewrite Heq.
      apply elem_of_app. right. apply list_elem_of_here. }
    destruct (R r b) eqn:Hrb.
    + exists before, (after ++ [b]). split; [|split; [done|]].
      * rewrite app_comm_cons, Heq. by rewrite <- app_assoc.
      * rewrite app_comm_cons. apply Forall_app. split; [done|].
        by apply Forall_singleton.
    + exists (x :: l), []. split; [reflexivity|].
      assert (Hbr : R b r = true) by exact (R_total r b HPr HPb Hrb).
      split.
      * eapply Forall_impl; [exact Hall|]. intros y Hry. simpl in Hry.
        destruct (R y b) eqn:Hyb; [|done].
        rewrite (R_trans _ _ _ Hry Hyb) in Hrb. discriminate.
      * rewrite app_comm_cons. apply Forall_app. split.
        -- eapply Forall_impl; [exact Hall|]. intros y Hry. simpl in Hry.
           by apply (R_trans _ _ _ Hbr).
        -- apply Forall_singleton. by apply R_refl.
Qed.
End Scan.

(** X4. When no score of the resolved runs is NaN, the run of the "Best
    Accuracy" card has the highest score (a missing score counting as 0),
    and on a tie it is the first such run: every run before it scores
    strictly less. *)
Theorem summary_best_is_first_maximum (runs : list RunRow.t) (s : Summary.t) :
  SummaryCards runs = Some s ->
  Forall (fun r => isNaN (scoreOf r) = false) runs ->
  exists before after,
    runs = before ++ Summary.best s :: after
    /\ Forall (fun r => PrimFloat.leb (scoreOf r) (scoreOf (Summary.best s)) = true) runs
    /\ Forall (fun r => PrimFloat.leb (scoreOf (Summary.best s)) (scoreOf r) = false)
         before.
Proof.
  intros Hs Hnan. destruct runs as [|x l]; [discriminate|].
  unfold SummaryCards in Hs. simpl in Hs. injection Hs as <-. simpl.
  destruct (scan_first_best
              (fun a b => PrimFloat.leb (scoreOf b) (scoreOf a))
              (fun r => isNaN (scoreOf r) = false)) with (x := x) (l := l)
    as (before & after & Heq & Hbefore & Hall).
  - intros a Ha. by apply leb_refl.
  - intros a b Ha Hb. by apply leb_total.
  - intros a b c Hab Hbc. by apply (leb_trans _ (scoreOf b)).
  - done.
  - exists before, after. done.
Qed.

(** X5. When no duration of the resolved runs is NaN, the run of the
    "Fastest" card has the shortest duration (a missing duration counting
    as Infinity), and on a tie it is the first such run. *)
Theorem summary_fastest_is_first_minimum (runs : list RunRow.t) (s : Summary.t) :
  SummaryCards runs = Some s ->
  Forall (fun r => isNaN (durationOf r) = false) runs ->
  exists before after,
    runs = before ++ Summary.fastest s :: after
    /\ Forall (fun r => PrimFloat.leb (durationOf (Summary.fastest s)) (durationOf r) = true)
         runs
    /\ Forall (fun r => PrimFloat.leb (durationOf r) (durationOf (Summary.fastest s)) = false)
         before.
Proof.
  intros Hs Hnan. destruct runs as [|x l]; [discriminate|].
  unfold SummaryCards in Hs. simpl in Hs. injection Hs as <-. simpl.
  destruct (scan_first_best
              (fun a b => PrimFloat.leb (durationOf a) (durationOf b))
              (fun r => isNaN (durationOf r) = false)) with (x := x) (l := l)
    as (before & after & Heq & Hbefore & Hall).
  - intros a Ha. by apply leb_refl.
  - intros a b Ha Hb Hab. by apply leb_total.
  - intros a b c Hab Hbc. by apply (leb_trans _ (durationOf b)).
  - done.
  - exists before, after. done.
Qed.

(** ** Sorting *)

Section SortFacts.
Context {A : Type} (gt : A -> A -> bool).
(** The comparator is never positive both ways. *)
Hypothesis gt_asym : forall x y, gt x y = true -> gt y x = false.

Lemma sortInsert_Sorted (x : A) (l : list A) :
  Sorted (fun a b => gt a b = false) l ->
  Sorted (fun a b => gt a b = false) (sortInsert gt x l).
Proof.
  induction l as [|y l IH]; intros Hs; simpl.
  - repeat constructor.
  - inversion Hs as [|? ? Hl Hhd]; subst. destruct (gt x y) eqn:E.
    + constructor; [by apply IH|].
      destruct l as [|z l]; simpl.
      * constructor. by apply gt_asym.
      * destruct (gt x z); constructor; [by inversion Hhd|by apply gt_asym].
    + constructor; [done|by constructor].
Qed.

(** In the sorted array no element is followed by one the comparator
    puts before it. *)
Lemma sort_Sorted (a : list A) : Sorted (fun x y => gt x y = false) (sort gt a).
Proof.
  induction a as [|x a IH]; simpl; [constructor|]. by apply sortInsert_Sorted.
Qed.
End SortFacts.

Lemma unitsGt_asym (x y : jsstring) : unitsGt x y = true -> unitsGt y x = false.
Proof.
  revert y. induction x as [|u x IH]; intros [|v y]; simpl; try done.
  destruct (N.ltb_spec v u), (N.ltb_spec u v); try done; try lia. apply IH.
Qed.

(** Subtraction never is positive both ways. *)
Lemma binary_round_negative (m : positive) (e : Z) :
  SFltb (S754_zero false) (binary_round prec emax true m e) = false.
Proof.
  unfold binary_round. destruct (shl_align _ _ _) as [mz ez].
  unfold binary_round_aux. destruct (shr_fexp _ _ _ _ _) as [mrs' e'].
  destruct (shr_fexp _ _ _ _ _) as [mrs'' e''].
  destruct (shr_m mrs''); [reflexivity| |reflexivity].
  destruct (Z.leb _ _); reflexivity.
Qed.

Lemma binary_normalize_opp (z e : Z) :
  SFltb (S754_zero false) (binary_normalize prec emax z e false) = true ->
  SFltb (S754_zero false) (binary_normalize prec emax (- z) e false) = false.
Proof.
  destruct z as [|p|p]; unfold binary_normalize; cbn [Z.opp].
  - discriminate.
  - intros _. apply binary_round_negative.
  - by rewrite binary_round_negative.
Qed.

Lemma SFsub_asym (x y : spec_float) :
  SFltb (S754_zero false) (SFsub prec emax x y) = true ->
  SFltb (S754_zero false) (SFsub prec emax y x) = false.
Proof.
  destruct x as [sx|sx| |sx mx ex], y as [sy|sy| |sy my ey];
    try (try destruct sx; try destruct sy; simpl; done).
  cbn [SFsub]. rewrite (Z.min_comm ey ex).
  match goal with
  | |- context [binary_normalize _ _ (?u - ?v) _ _] =>
      replace (v - u) with (- (u - v)) by lia
  end.
  apply binary_normalize_opp.
Qed.

Lemma sub_positive_asym (a b : float) :
  PrimFloat.ltb 0 (b - a) = true -> PrimFloat.ltb 0 (a - b) = false.
Proof.
  rewrite !FloatAxioms.ltb_spec, !FloatAxioms.sub_spec.
  change (Prim2SF 0) with (S754_zero false). apply SFsub_asym.
Qed.

(** ** The charts *)

Section MapFilterIndexed.
Context {A B : Type}.
Implicit Types (f g : A -> nat -> option B) (a : list A).

Lemma mapFilterIndexed_elem f a (e : B) :
  e ∈ mapFilterIndexed f a <-> exists i r, a !! i = Some r /\ f r i = Some e.
Proof.
  unfold mapFilterIndexed. rewrite list_elem_of_omap. split.
  - intros ([i r] & Hin & He).
    apply elem_of_lookup_imap in Hin as (j & r' & Heq & Hr).
    injection Heq as -> ->. exists j, r'. done.
  - intros (i & r & Hr & He). exists (i, r). split; [|done].
    apply elem_of_lookup_imap. eauto.
Qed.

Lemma omap_length_le {C B'} (f' : C -> option B) (g' : C -> option B') (l : list C) :
  (forall x, is_Some (f' x) -> is_Some (g' x)) ->
  (length (omap f' l) <= length (omap g' l))%nat.
Proof.
  intros H. induction l as [|x l IH]; csimpl; [done|].
  destruct (f' x) as [y|] eqn:E; csimpl.
  - destruct (H x) as [z ->]; [rewrite E; eauto|]. csimpl. lia.
  - destruct (g' x); csimpl; lia.
Qed.

Lemma mapFilterIndexed_length_le {B'} f (g : A -> nat -> option B') a :
  (forall r i, is_Some (f r i) -> is_Some (g r i)) ->
  (length (mapFilterIndexed f a) <= length (mapFilterIndexed g a))%nat.
Proof. intros H. apply omap_length_le. intros [i r]. apply H. Qed.
End MapFilterIndexed.

Lemma efficiency_qualifies_for_scatter (modelMap : ModelMap) (r : RunRow.t) (i : nat) :
  is_Some (efficiencyEntry modelMap r i) -> is_Some (scatterPoint modelMap r i).
Proof.
  intros [e He]. apply efficiencyEntry_Some in He as (c & avg & Hc & _ & Havg & _).
  unfold scatterPoint. rewrite Hc, Havg. eauto.
Qed.

(** X6. Whenever the cost-efficiency ranking is rendered, the
    cost-vs-accuracy scatter is rendered too, and every entry of the
    ranking comes from a run that also has a point in the scatter, a bar
    in the score chart and a bar in the duration chart, all four under the
    same label and in the same colour. *)
Theorem ranking_inside_other_charts (runs : list RunRow.t) (modelMap : ModelMap)
  (ranking : list Efficiency.t) :
  CostEfficiencyChart runs modelMap = Some ranking ->
  exists points,
    CostVsPerformanceChart runs modelMap = Some points
    /\ forall e, e ∈ ranking ->
         exists i p score duration,
           p ∈ points
           /\ ScoreComparisonChart runs !! i = Some score
           /\ DurationComparisonChart runs !! i = Some duration
           /\ ScatterPoint.name p = Efficiency.name e
           /\ ScoreBar.name score = Efficiency.name e
           /\ DurationBar.name duration = Efficiency.name e
           /\ ScatterPoint.fill p = Efficiency.fill e
           /\ ScoreBar.fill score = Efficiency.fill e
           /\ DurationBar.fill duration = Efficiency.fill e.
Proof.
  unfold CostEfficiencyChart, CostVsPerformanceChart.
  pose proof (mapFilterIndexed_length_le (efficiencyEntry modelMap)
                (scatterPoint modelMap) runs
                (efficiency_qualifies_for_scatter modelMap)) as Hlen.
  destruct (Nat.ltb_spec (length (mapFilterIndexed (efficiencyEntry modelMap) runs)) 2)
    as [|Htwo]; [discriminate|].
  intros [= <-].
  destruct (Nat.ltb_spec (length (mapFilterIndexed (scatterPoint modelMap) runs)) 2);
    [lia|].
  eexists. split; [reflexivity|]. intros e He.
  rewrite sort_Permutation in He.
  apply mapFilterIndexed_elem in He as (i & r & Hr & He).
  pose proof He as Hentry.
  apply efficiencyEntry_Some in He as (c & avg & Hc & _ & Havg & ->).
  eexists i, _, _, _. split; [|split; [|split]].
  - apply mapFilterIndexed_elem. exists i, r. split; [done|].
    unfold scatterPoint. by rewrite Hc, Havg.
  - unfold ScoreComparisonChart. by rewrite list_lookup_imap, Hr.
  - unfold DurationComparisonChart. by rewrite list_lookup_imap, Hr.
  - done.
Qed.

(** X7. Every point of the cost-vs-accuracy scatter comes from a run
    whose model is in the catalog: it carries the catalog's display name
    and a logo URL, never the label fallback and never a missing logo. *)
Theorem scatter_points_are_catalogued (runs : list RunRow.t) (modelMap : ModelMap)
  (points : list ScatterPoint.t) (p : ScatterPoint.t) :
  CostVsPerformanceChart runs modelMap = Some points ->
  p ∈ points ->
  exists i r model,
    runs !! i = Some r
    /\ modelMap !! RunRow.model r = Some model
    /\ is_Some (CatalogModel.costPer1MTokens model)
    /\ ScatterPoint.displayName p = CatalogModel.displayName model
    /\ ScatterPoint.logoUrl p = Some (getModelLogoUrl model).
Proof.
  unfold CostVsPerformanceChart. destruct (_ <? _)%nat; [discriminate|].
  intros [= <-] Hp. apply mapFilterIndexed_elem in Hp as (i & r & Hr & Hp).
  unfold scatterPoint in Hp.
  destruct (computeRunCost r _) as [cost|] eqn:Hcost; [|discriminate].
  destruct (RunRow.avg_score r); [|discriminate]. injection Hp as <-.
  apply computeRunCost_Some in Hcost as (price & Hprice & _).
  apply pricing_Some in Hprice as (model & Hmodel & Hp).
  exists i, r, model. rewrite Hmodel, Hp. eauto.
Qed.

(** X8. The cost-efficiency chart renders nothing exactly when fewer than
    two runs qualify; when rendered, the ranking is a rearrangement of
    the qualifying entries and, when none of their efficiencies is NaN
    (so that the comparator [b.efficiency - a.efficiency] is consistent
    and fixes the order), no entry of the ranking is followed by one
    that the comparator puts in front of it. *)
Theorem ranking_is_sorted (runs : list RunRow.t) (modelMap : ModelMap) :
  let qualifying := mapFilterIndexed (efficiencyEntry modelMap) runs in
  (CostEfficiencyChart runs modelMap = None <-> (length qualifying < 2)%nat)
  /\ (forall ranking,
        CostEfficiencyChart runs modelMap = Some ranking ->
        ranking ≡ₚ qualifying
        /\ (Forall (fun e => isNaN (Efficiency.efficiency e) = false) qualifying ->
            Sorted (fun a b =>
                      PrimFloat.ltb 0 (Efficiency.efficiency b - Efficiency.efficiency a)
                      = false) ranking)).
Proof.
  intros qualifying. unfold CostEfficiencyChart. fold qualifying.
  destruct (Nat.ltb_spec (length qualifying) 2).
  - split; [done|]. intros ranking [=].
  - split; [split; [discriminate|lia]|]. intros ranking [= <-]. split.
    + apply sort_Permutation.
    + intros _.
      apply (sort_Sorted (fun a b =>
               PrimFloat.ltb 0 (Efficiency.efficiency b - Efficiency.efficiency a))).
      intros a b. apply sub_positive_asym.
Qed.

(** ** The per-file heatmap *)

Section MapBuilding.
Context {V : Type}.
Implicit Types (m : OrderedMap V) (k : jsstring).

Lemma Map_set_fresh m k (v : V) : k ∉ map fst m -> Map_set m k v = m ++ [(k, v)].
Proof.
  induction m as [|[k' v'] m IH]; simpl; [done|].
  intros [Hne Hk]%not_elem_of_cons.
  rewrite bool_decide_eq_false_2 by done. by rewrite IH.
Qed.

Lemma Map_get_elem m k (v : V) :
  NoDup (map fst m) -> (Map_get m k = Some v <-> (k, v) ∈ m).
Proof.
  induction m as [|[k' v'] m IH]; simpl; intros Hnd.
  - split; [discriminate|]. by intros ?%elem_of_nil.
  - apply NoDup_cons in Hnd as [Hk' Hnd].
    destruct (decide (k' = k)) as [->|Hne].
    + rewrite bool_decide_eq_true_2 by done. split.
      * intros [= ->]. apply list_elem_of_here.
      * intros [[= ->]|Hin]%elem_of_cons; [done|].
        destruct Hk'. apply list_elem_of_fmap. by exists (k, v).
    + rewrite bool_decide_eq_false_2 by done. rewrite IH by done.
      rewrite elem_of_cons. split; [by right|]. intros [[= ? ?]|?]; [congruence|done].
Qed.

End MapBuilding.

(** The keys of an object are distinct, so the effect keeps the entries
    of the resolved runs as they are, in their order. *)
Lemma selectFileScores_filter (runs : list RunRow.t)
  (allScores : list (jsstring * list FileResultRow.t)) :
  NoDup (map fst allScores) ->
  selectFileScores runs allScores
  = filter (fun e => bool_decide (e.1 ∈ RunRow.id <$> runs) = true) allScores.
Proof.
  unfold selectFileScores.
  assert (H : forall acc,
             NoDup (map fst acc ++ map fst allScores) ->
             fold_left (fun map entry =>
                          if bool_decide (entry.1 ∈ RunRow.id <$> runs)
                          then Map_set map entry.1 entry.2 else map) allScores acc
             = acc ++ filter (fun e => bool_decide (e.1 ∈ RunRow.id <$> runs) = true)
                        allScores).
  { induction allScores as [|[k v] l IH]; intros acc Hnd; cbn [fold_left fst snd].
    - by rewrite filter_nil, app_nil_r.
    - simpl in Hnd. apply NoDup_app in Hnd as (Hacc & Hdisj & Hl).
      apply NoDup_cons in Hl as [Hk Hl].
      destruct (bool_decide (k ∈ RunRow.id <$> runs)) eqn:E.
      + rewrite filter_cons_True by done.
        rewrite Map_set_fresh by (intros Hin; apply (Hdisj k Hin); apply list_elem_of_here).
        rewrite IH; [by rewrite <- app_assoc|].
        rewrite map_app. simpl. rewrite <- app_assoc. simpl.
        apply NoDup_app. split; [done|]. split; [|by apply NoDup_cons].
        intros x Hx. apply Hdisj. done.
      + rewrite filter_cons_False by (simpl; congruence).
        apply IH. apply NoDup_app. split; [done|]. split; [|done].
        intros x Hx Hin. apply (Hdisj x Hx). by apply list_elem_of_further. }
  intros Hnd. rewrite H; [done|]. done.
Qed.




Lemma allFileIds_elem (filesByRun : OrderedMap (list FileResultRow.t)) (fid : jsstring) :
  fid ∈ allFileIds filesByRun
  <-> exists runId files f,
        (runId, files) ∈ filesByRun /\ f ∈ files /\ FileResultRow.file_id f = fid.
Proof.
  unfold allFileIds, Map_values. rewrite sort_Permutation, distinct_elem.
  rewrite list_elem_of_In, in_concat. split.
  - intros (ids & Hids & Hfid). apply in_map_iff in Hids as (files & <- & Hfiles).
    apply in_map_iff in Hfiles as ([runId files'] & <- & Hentry).
    apply in_map_iff in Hfid as (f & <- & Hf).
    exists runId, files', f. by rewrite !list_elem_of_In.
  - intros (runId & files & f & Hentry & Hf & <-).
    exists (map FileResultRow.file_id files). split.
    + apply in_map_iff. exists files. split; [done|].
      apply in_map_iff. exists (runId, files). by rewrite <- list_elem_of_In.
    + apply in_map. by rewrite <- list_elem_of_In.
Qed.

Lemma selected_entry (runs : list RunRow.t)
  (allScores : list (jsstring * list FileResultRow.t))
  (runId : jsstring) (files : list FileResultRow.t) :
  NoDup (map fst allScores) ->
  ((runId, files) ∈ selectFileScores runs allScores
   <-> (runId, files) ∈ allScores /\ exists run, run ∈ runs /\ RunRow.id run = runId).
Proof.
  intros Hnd. rewrite selectFileScores_filter by done.
  rewrite list_elem_of_filter, bool_decide_eq_true, list_elem_of_fmap. cbn [fst].
  split.
  - intros [(run & -> & Hrun) Hin]. eauto.
  - intros [Hin (run & Hrun & <-)]. eauto.
Qed.

Lemma PerFileHeatmap_Some (runs : list RunRow.t)
  (filesByRun : OrderedMap (list FileResultRow.t)) (isDark : bool) :
  is_Some (PerFileHeatmap runs filesByRun isDark) <-> allFileIds filesByRun <> [].
Proof.
  unfold PerFileHeatmap. destruct (allFileIds filesByRun) as [|fid fids]; simpl.
  - split; [intros [? [=]]|done].
  - split; [done|eauto].
Qed.

(** The function [heatmapSection] gives a heatmap exactly when the
    dataset holds a file result for one of the resolved runs. *)
Lemma heatmapSection_Some (runs : list RunRow.t)
  (allScores : list (jsstring * list FileResultRow.t)) (isDark : bool) :
  NoDup (map fst allScores) ->
  (is_Some (heatmapSection runs allScores isDark)
   <-> exists run files,
         run ∈ runs /\ (RunRow.id run, files) ∈ allScores /\ files <> []).
Proof.
  intros Hnd. unfold heatmapSection.
  assert (Hids : allFileIds (selectFileScores runs allScores) <> []
                 <-> exists run files,
                       run ∈ runs /\ (RunRow.id run, files) ∈ allScores /\ files <> []).
  { split.
    - intros Hne. destruct (allFileIds _) as [|fid fids] eqn:E; [done|].
      assert (Hfid : fid ∈ allFileIds (selectFileScores runs allScores))
        by (rewrite E; apply list_elem_of_here).
      apply allFileIds_elem in Hfid as (runId & files & f & Hentry & Hf & _).
      apply selected_entry in Hentry as [Hin (run & Hrun & <-)]; [|done].
      exists run, files. split; [done|]. split; [done|].
      intros ->. by apply elem_of_nil in Hf.
    - intros (run & files & Hrun & Hin & Hne) Hnil.
      destruct files as [|f files]; [done|].
      assert (Hfid : FileResultRow.file_id f ∈ allFileIds (selectFileScores runs allScores)).
      { apply allFileIds_elem. exists (RunRow.id run), (f :: files), f.
        split; [|split; [apply list_elem_of_here|done]].
        apply selected_entry; [done|]. eauto. }
      rewrite Hnil in Hfid. by apply elem_of_nil in Hfid. }
  rewrite <- Hids.
  destruct (selectFileScores runs allScores) as [|entry entries] eqn:E.
  - simpl. split; [intros [? [=]]|]. intros Hne. by destruct Hne.
  - cbn [length Nat.ltb Nat.leb]. apply PerFileHeatmap_Some.
Qed.



(** ** Printed numbers *)

Lemma uint_digits (u : Decimal.uint) :
  forallb isDigit (str (NilEmpty.string_of_uint u)) = true.
Proof. induction u; simpl; try done. Qed.

Lemma digits_isDigit (n : Z) : forallb isDigit (digits n) = true.
Proof.
  unfold digits, NilZero.string_of_uint.
  destruct (N.to_uint (Z.to_N n)) eqn:E; try apply uint_digits. reflexivity.
Qed.

Lemma digits_nonempty (n : Z) : digits n <> [].
Proof.
  unfold digits, NilZero.string_of_uint.
  destruct (N.to_uint (Z.to_N n)); discriminate.
Qed.

(** In plain decimal notation [toFixed] prints an optional minus sign, at
    least one digit, the point and exactly [fd] digits. *)
Lemma toFixed_plain (x : float) (fd : nat) :
  plainDecimal x -> (0 < fd)%nat ->
  exists sign whole fraction,
    toFixed x fd = sign ++ whole ++ str "." ++ fraction
    /\ (sign = [] \/ sign = str "-")
    /\ whole <> [] /\ length fraction = fd
    /\ forallb isDigit (whole ++ fraction) = true.
Proof.
  unfold plainDecimal, toFixed. intros Hplain Hfd.
  destruct (Prim2SF x) as [s|s| |s m e]; try done.
  - destruct fd as [|fd]; [lia|].
    exists [], (str "0"), (repeat 48%N (S fd)). rewrite repeat_length.
    repeat split; [by left|done|].
    rewrite forallb_app. apply andb_true_intro. split; [done|].
    apply forallb_forall. by intros u ->%repeat_spec.
  - rewrite Hplain. destruct fd as [|fd]; [lia|].
    set (m0 := digits (fixedDigits m e (S fd))).
    set (m1 := repeat 48%N (S (S fd) - length m0) ++ m0).
    assert (Hlen : (S (S fd) <= length m1)%nat).
    { unfold m1. rewrite length_app, repeat_length. lia. }
    assert (Hdig : forallb isDigit m1 = true).
    { unfold m1. rewrite forallb_app. apply andb_true_intro. split.
      - apply forallb_forall. by intros u ->%repeat_spec.
      - apply digits_isDigit. }
    exists (if s then str "-" else []), (take (length m1 - S fd) m1),
      (drop (length m1 - S fd) m1).
    split; [done|]. split; [destruct s; auto|]. split; [|split].
    + intros Hnil. apply (f_equal length) in Hnil.
      rewrite length_take in Hnil. simpl in Hnil. lia.
    + rewrite length_drop. lia.
    + by rewrite take_drop.
Qed.

(** X12. A known cost that is finite and below 10^21 in magnitude is
    shown as a dollar sign, an optional minus sign, at least one digit,
    the decimal point and exactly 4 digits when the cost is below 0.01,
    3 when it is below 1, and 2 otherwise. *)
Theorem formatCost_decimals (run : RunRow.t) (model : option CatalogModel.t)
  (cost : float) :
  computeRunCost run model = Some cost ->
  plainDecimal cost ->
  exists sign whole fraction,
    formatCost run model = str "$" ++ sign ++ whole ++ str "." ++ fraction
    /\ (sign = [] \/ sign = str "-")
    /\ whole <> []
    /\ length fraction = costDecimals cost
    /\ forallb isDigit (whole ++ fraction) = true.
Proof.
  intros Hcost Hplain. revert Hcost. unfold formatCost, computeRunCost.
  destruct (pricing model) as [price|]; [|discriminate].
  destruct (PrimFloat.eqb _ 0 && PrimFloat.eqb _ 0); [discriminate|].
  intros Hcost. apply (inj Some) in Hcost. unfold costDecimals. rewrite !Hcost.
  destruct (PrimFloat.ltb cost 0.01); [|destruct (PrimFloat.ltb cost 1)].
  all: match goal with
       | |- context [toFixed ?c ?fd] =>
           destruct (toFixed_plain c fd Hplain) as (sign & whole & fraction & -> & H);
           [lia|exists sign, whole, fraction; by split]
       end.
Qed.



(** X14. The cost cell of the table is either the bare placeholder, when
    the cost of the row is unknown, or the formatted cost under a
    tooltip quoting the two prices of the row's model, when it is known:
    a bare cell never shows a cost and a tooltip never covers the
    placeholder. *)
Theorem costColumnCell_cases (modelMap : ModelMap) (row : RunRow.t) :
  let model := modelMap !! RunRow.model row in
  match costColumnCell modelMap row with
  | BareCost text => text = dash /\ computeRunCost row model = None
  | CostWithTip tip text =>
      text = formatCost row model /\ text <> dash
      /\ exists price cost,
           pricing model = Some price /\ computeRunCost row model = Some cost
           /\ tip = str "$" ++ toString (Cost.input price) ++ str "/M in " ++ middleDot
                    ++ str " $" ++ toString (Cost.output price) ++ str "/M out"
  end.
Proof.
  intros model. unfold costColumnCell. fold model.
  destruct (pricing model) as [price|] eqn:Hprice.
  - case_bool_decide as Hdash.
    + split; [done|]. by apply formatCost_dash.
    + split; [done|]. split; [done|].
      destruct (computeRunCost row model) as [cost|] eqn:Hcost.
      * exists price, cost. done.
      * by apply formatCost_dash in Hcost.
  - assert (Hnone : computeRunCost row model = None)
      by (apply computeRunCost_None; by left).
    split; [|done]. by apply formatCost_dash.
Qed.

(** ** Labels, previews, the loader, release points and facets *)

(** X15. A chart label never contains a slash and never has more than 29
    characters; the label of a model id without a slash and of at most 28
    characters is the id itself. *)
Theorem getLabel_bounds (run : RunRow.t) :
  (slash ∉ getLabel run)
  /\ (length (getLabel run) <= 29)%nat
  /\ (slash ∉ RunRow.model run -> (length (RunRow.model run) <= 28)%nat ->
      getLabel run = RunRow.model run).
Proof.
  destruct (strippedModel_spec run) as [Hno Hsplit].
  destruct (getLabel_cases run) as [Hshort Hlong].
  destruct (Nat.le_gt_cases (length (strippedModel run)) 28) as [Hle|Hgt].
  - rewrite (Hshort Hle). split; [done|]. split; [lia|].
    intros Hmodel _. destruct Hsplit as [->|[prefix Heq]]; [done|].
    destruct Hmodel. rewrite Heq. apply elem_of_app. right. apply list_elem_of_here.
  - destruct (Hlong Hgt) as [Heq Hlen]. rewrite Hlen. split; [|split; [lia|]].
    + rewrite Heq. intros [Hin|Hin]%elem_of_app.
      * apply Hno. apply elem_of_take in Hin as (k & Hk & _).
        by apply list_elem_of_lookup_2 in Hk.
      * vm_compute in Hin. repeat (apply elem_of_cons in Hin as [Hin|Hin]; [done|]).
        by apply elem_of_nil in Hin.
    + intros Hmodel Hlen'. destruct Hsplit as [Heq'|[prefix Heq']].
      * rewrite <- Heq' in Hgt. lia.
      * destruct Hmodel. rewrite Heq'. apply elem_of_app. right. apply list_elem_of_here.
Qed.

Lemma dropWhile_head {A} (p : A -> bool) (l : list A) (x : A) :
  head (dropWhile p l) = Some x -> p x = false.
Proof.
  induction l as [|y l IH]; simpl; [done|].
  destruct (p y) eqn:E; [done|]. simpl. by intros [= <-].
Qed.

Lemma last_rev {A} (l : list A) : last (rev l) = head l.
Proof. destruct l as [|x l]; simpl; [done|apply last_snoc]. Qed.

Lemma trimEnd_last (s : jsstring) (u : N) :
  last (trimEnd s) = Some u -> isWhiteSpace u = false.
Proof. unfold trimEnd. rewrite last_rev. apply dropWhile_head. Qed.

(** X16. A truncated prompt preview never has white space in front of
    its marker: the kept text is empty or ends with a character that is
    not white space. *)
Theorem truncatePrompt_no_space_before_marker (text : jsstring) (max : Z) :
  text <> [] -> max < Z.of_nat (length text) ->
  exists kept,
    truncatePrompt (Some text) max = kept ++ ellipsis
    /\ (kept = [] \/ exists before u, kept = before ++ [u] /\ isWhiteSpace u = false).
Proof.
  intros Hne Hlong. unfold truncatePrompt. destruct text as [|c text]; [done|].
  destruct (Z.leb_spec (Z.of_nat (length (c :: text))) max); [lia|].
  eexists. split; [reflexivity|].
  destruct (trimEnd (slice0 (c :: text) max)) as [|u kept _] eqn:E using rev_ind;
    [by left|].
  right. exists kept, u. split; [done|].
  apply (trimEnd_last (slice0 (c :: text) max)). rewrite E. apply last_snoc.
Qed.

(** X17. Once the cache is filled it stays filled and no later call
    fetches, whatever calls and responses follow. *)
Theorem loader_never_refetches (s : Loader.state) (es : list Loader.event) :
  is_Some (Loader.cached s) ->
  is_Some (Loader.cached (fold_left Loader.step es s))
  /\ Loader.fetches (fold_left Loader.step es s) = Loader.fetches s.
Proof.
  revert s. induction es as [|e es IH]; intros s [d Hd]; simpl; [eauto|].
  assert (Hstep : is_Some (Loader.cached (Loader.step s e))
                  /\ Loader.fetches (Loader.step s e) = Loader.fetches s).
  { destruct e as [|d']; simpl.
    - unfold Loader.loadData_enter. rewrite Hd. simpl. eauto.
    - unfold Loader.loadData_resume. destruct (Loader.inFlight s); simpl; eauto. }
  destruct Hstep as [Hcached Hfetches].
  destruct (IH _ Hcached) as [? Heq]. split; [done|]. by rewrite Heq.
Qed.

Lemma qualifiesForRelease_true (modelMap : ModelMap) (r : RunRow.t) :
  qualifiesForRelease modelMap r = true
  <-> exists m date avg,
        modelMap !! RunRow.model r = Some m
        /\ releaseDateOf (Some m) = Some date /\ RunRow.avg_score r = Some avg.
Proof.
  unfold qualifiesForRelease. rewrite bool_decide_eq_true. split.
  - intros [[date Hdate] [avg Havg]].
    destruct (modelMap !! RunRow.model r) as [m|]; [|discriminate]. eauto 6.
  - intros (m & date & avg & -> & -> & ->). eauto.
Qed.

Lemma bestByModel_step_keys (modelMap : ModelMap)
  (best : OrderedMap ReleasePoint.t) (r : RunRow.t) :
  map fst (bestByModel_step modelMap best r)
  = if qualifiesForRelease modelMap r
    then (if bool_decide (RunRow.model r ∈ map fst best) then map fst best
          else map fst best ++ [RunRow.model r])
    else map fst best.
Proof.
  destruct (qualifiesForRelease modelMap r) eqn:Hq.
  - apply qualifiesForRelease_true in Hq as (m & date & avg & Hm & Hdate & Havg).
    unfold bestByModel_step. rewrite Hm, Hdate, Havg.
    destruct (Map_get best (RunRow.model r)) as [existing|] eqn:Hget.
    + assert (Hin : RunRow.model r ∈ map fst best).
      { destruct (decide (RunRow.model r ∈ map fst best)) as [|Hout]; [done|].
        apply Map_get_None in Hout. congruence. }
      rewrite (bool_decide_eq_true_2 _ Hin).
      destruct (PrimFloat.ltb _ _); [|done].
      by rewrite Map_set_keys, (bool_decide_eq_true_2 _ Hin).
    + apply Map_get_None in Hget. rewrite Map_set_keys.
      by rewrite !(bool_decide_eq_false_2 _ Hget).
  - unfold bestByModel_step.
    destruct (modelMap !! RunRow.model r) as [m|] eqn:Hm; [|done].
    destruct (releaseDateOf (Some m)) as [date|] eqn:Hdate; [|done].
    destruct (RunRow.avg_score r) as [avg|] eqn:Havg; [|done].
    assert (qualifiesForRelease modelMap r = true); [|congruence].
    apply qualifiesForRelease_true. eauto 6.
Qed.

Lemma bestByModel_keys_from (runs : list RunRow.t) (modelMap : ModelMap)
  (best : OrderedMap ReleasePoint.t) :
  map fst (fold_left (bestByModel_step modelMap) runs best)
  = fold_left (fun seen x => if bool_decide (x ∈ seen) then seen else seen ++ [x])
      (map RunRow.model
         (filter (fun r => qualifiesForRelease modelMap r = true) runs))
      (map fst best).
Proof.
  revert best. induction runs as [|r runs IH]; intros best; [done|].
  cbn [fold_left]. rewrite IH, bestByModel_step_keys, filter_cons.
  destruct (qualifiesForRelease modelMap r) eqn:Hq.
  - rewrite decide_True by done. reflexivity.
  - rewrite decide_False by done. reflexivity.
Qed.

Lemma bestByModel_keys (runs : list RunRow.t) (modelMap : ModelMap) :
  map fst (bestByModel runs modelMap)
  = distinct (map RunRow.model
                (filter (fun r => qualifiesForRelease modelMap r = true) runs)).
Proof. apply bestByModel_keys_from. Qed.

(** X18. The release-date loop keeps one point per model id among the
    runs whose joined model has a (non-empty) release date and whose
    average score is defined, in the order in which those ids first
    occur; the chart is a rearrangement of these points and renders
    nothing exactly when there are fewer than two such ids. *)
Theorem release_chart_points (runs : list RunRow.t) (modelMap : ModelMap)
  (localeGt : jsstring -> jsstring -> bool) :
  let ids := distinct (map RunRow.model
                         (filter (fun r => qualifiesForRelease modelMap r = true) runs)) in
  map fst (bestByModel runs modelMap) = ids
  /\ (PerformanceByReleaseDateChart localeGt runs modelMap = None
      <-> (length ids < 2)%nat)
  /\ (forall data,
        PerformanceByReleaseDateChart localeGt runs modelMap = Some data ->
        data ≡ₚ Map_values (bestByModel runs modelMap)
        /\ length data = length ids).
Proof.
  intros ids. pose proof (bestByModel_keys runs modelMap) as Hkeys. fold ids in Hkeys.
  assert (Hlen : length (Map_values (bestByModel runs modelMap)) = length ids).
  { unfold Map_values. by rewrite length_map, <- Hkeys, length_map. }
  split; [done|]. unfold PerformanceByReleaseDateChart.
  rewrite sort_length, Hlen.
  destruct (Nat.ltb_spec (length ids) 2).
  - split; [done|]. intros data [=].
  - split; [split; [discriminate|lia]|]. intros data [= <-].
    split; [apply sort_Permutation|]. by rewrite sort_length.
Qed.

(** X19. The options of a rendered column filter are "All", with the
    empty value, followed by the distinct stringified cell values in
    code-unit order, each once; a null or empty cell therefore adds an
    option whose value is empty too, and choosing it passes [undefined]
    to [setFilterValue] just as "All" does. *)
Theorem ColumnFilter_options (cells : list (option jsstring))
  (columnFilterValue : option jsstring) (select : Select.t) :
  ColumnFilter cells columnFilterValue = Some select ->
  exists values,
    Select.options select = ([], str "All") :: map (fun v => (v, v)) values
    /\ Select.value select = default [] columnFilterValue
    /\ NoDup values
    /\ Sorted (fun a b => unitsGt a b = false) values
    /\ (forall v, v ∈ values <-> exists cell, cell ∈ cells /\ v = default [] cell)
    /\ ((None ∈ cells \/ Some [] ∈ cells) ->
        ([], []) ∈ map (fun v => (v, v)) values /\ onChangeValue [] = None).
Proof.
  unfold ColumnFilter. destruct (_ <=? _)%nat; [discriminate|]. intros [= <-].
  exists (facetValues cells). cbn [Select.options Select.value].
  split; [done|]. split; [done|]. split; [apply facetValues_NoDup|].
  split; [apply sort_Sorted, unitsGt_asym|]. split; [apply facetValues_elem|].
  intros Hempty. split; [|done].
  apply list_elem_of_fmap. exists []. split; [done|].
  apply facetValues_elem. destruct Hempty as [H|H]; eauto.
Qed.

(** ** The further properties at sample inputs *)

(** X4 at three runs of which the last two tie. *)
Lemma summary_best_is_first_maximum_witness :
  exists s before after,
    SummaryCards summaryRuns = Some s
    /\ summaryRuns = before ++ Summary.best s :: after
    /\ Forall (fun r => PrimFloat.leb (scoreOf r) (scoreOf (Summary.best s)) = true)
         summaryRuns
    /\ Forall (fun r => PrimFloat.leb (scoreOf (Summary.best s)) (scoreOf r) = false)
         before.
Proof.
  eexists.
  destruct (summary_best_is_first_maximum summaryRuns _ eq_refl)
    as (before & after & H); [repeat constructor|].
  exists before, after. split; [reflexivity|exact H].
Defined.

(** X5 at the same runs. *)
Lemma summary_fastest_is_first_minimum_witness :
  exists s before after,
    SummaryCards summaryRuns = Some s
    /\ summaryRuns = before ++ Summary.fastest s :: after
    /\ Forall (fun r => PrimFloat.leb (durationOf (Summary.fastest s)) (durationOf r) = true)
         summaryRuns
    /\ Forall (fun r => PrimFloat.leb (durationOf r) (durationOf (Summary.fastest s)) = false)
         before.
Proof.
  eexists.
  destruct (summary_fastest_is_first_minimum summaryRuns _ eq_refl)
    as (before & after & H); [repeat constructor|].
  exists before, after. split; [reflexivity|exact H].
Defined.

(** X6 at two priced runs. *)
Lemma ranking_inside_other_charts_witness :
  exists ranking points,
    CostEfficiencyChart pricedRuns pricedCatalog = Some ranking
    /\ CostVsPerformanceChart pricedRuns pricedCatalog = Some points
    /\ length ranking = 2%nat /\ length points = 2%nat.
Proof.
  eexists.
  destruct (ranking_inside_other_charts pricedRuns pricedCatalog _ eq_refl)
    as (points & Hpoints & _).
  exists points. split; [reflexivity|]. split; [exact Hpoints|].
  split; [reflexivity|]. vm_compute in Hpoints. by injection Hpoints as <-.
Defined.

(** X7 at the first of the two priced runs. *)
Lemma scatter_points_are_catalogued_witness :
  exists points p i r model,
    CostVsPerformanceChart pricedRuns pricedCatalog = Some points
    /\ p ∈ points
    /\ pricedRuns !! i = Some r
    /\ pricedCatalog !! RunRow.model r = Some model
    /\ ScatterPoint.logoUrl p = Some (getModelLogoUrl model).
Proof.
  eexists _, _.
  edestruct (scatter_points_are_catalogued pricedRuns pricedCatalog)
    as (i & r & model & Hr & Hmodel & _ & _ & Hlogo);
    [reflexivity|apply list_elem_of_here|].
  exists i, r, model. split; [reflexivity|]. split; [apply list_elem_of_here|done].
Defined.

Lemma heatScores_keys : NoDup (map fst heatScores).
Proof. apply (bool_decide_unpack _). vm_compute. exact I. Qed.



(** X12 at a cost of 7 dollars. *)
Lemma formatCost_decimals_witness :
  exists sign whole fraction,
    formatCost (withTokens (Some 1500000%float) (Some 500000%float)
                  (sampleRun "r1" "m" None))
      (Some (sampleModel "m" None (Some {| Cost.input := 2; Cost.output := 8 |})))
    = str "$" ++ sign ++ whole ++ str "." ++ fraction
    /\ length fraction = 2%nat.
Proof.
  edestruct (formatCost_decimals
               (withTokens (Some 1500000%float) (Some 500000%float)
                  (sampleRun "r1" "m" None))
               (Some (sampleModel "m" None (Some {| Cost.input := 2; Cost.output := 8 |})))
               7%float eq_refl)
    as (sign & whole & fraction & Heq & _ & _ & Hlen & _); [reflexivity|].
  exists sign, whole, fraction. split; [exact Heq|exact Hlen].
Defined.

(** X16 at a prompt cut in the middle of a run of spaces. *)
Lemma truncatePrompt_no_space_before_marker_witness :
  str "hello   world" <> [] /\ 8 < Z.of_nat (length (str "hello   world"))
  /\ truncatePrompt (Some (str "hello   world")) 8 = str "hello...".
Proof.
  split; [discriminate|]. split; [reflexivity|].
  destruct (truncatePrompt_no_space_before_marker (str "hello   world") 8)
    as (kept & Heq & _); [discriminate|reflexivity|].
  reflexivity.
Defined.

(** X17 at a filled cache followed by two calls. *)
Lemma loader_never_refetches_witness :
  let filled := Loader.run [Loader.Call; Loader.Respond emptyData] in
  is_Some (Loader.cached filled)
  /\ Loader.fetches (fold_left Loader.step [Loader.Call; Loader.Call] filled) = 1%nat.
Proof.
  split; [by eexists|].
  apply (loader_never_refetches
           (Loader.run [Loader.Call; Loader.Respond emptyData])
           [Loader.Call; Loader.Call]).
  by eexists.
Defined.

(** X19 at a column with two values and a null cell. *)
Lemma ColumnFilter_options_witness :
  exists select values,
    ColumnFilter [Some (str "openai"); None; Some (str "anthropic")] None = Some select
    /\ Select.options select = ([], str "All") :: map (fun v => (v, v)) values
    /\ NoDup values.
Proof.
  eexists.
  edestruct (ColumnFilter_options [Some (str "openai"); None; Some (str "anthropic")]
               None _ eq_refl) as (values & Hopts & _ & Hnd & _).
  exists values. split; [reflexivity|]. split; [exact Hopts|exact Hnd].
Defined.

(** ** Colours and the height of the table *)

(** X20. Two bars of the score chart have the same colour exactly when
    their positions differ by a multiple of 8, the size of the palette:
    the first eight runs get eight different colours, later runs reuse
    them in turn. *)
Theorem score_bar_colours (runs : list RunRow.t) (i j : nat) (bi bj : ScoreBar.t) :
  ScoreComparisonChart runs !! i = Some bi ->
  ScoreComparisonChart runs !! j = Some bj ->
  (ScoreBar.fill bi = ScoreBar.fill bj <-> i mod 8 = j mod 8)%nat.
Proof.
  unfold ScoreComparisonChart. rewrite !list_lookup_imap.
  destruct (runs !! i) as [ri|]; [|discriminate].
  destruct (runs !! j) as [rj|]; [|discriminate].
  intros [= <-] [= <-]. cbn [ScoreBar.fill]. unfold chartColor.
  change (length CHART_COLORS) with 8%nat.
  pose proof (Nat.mod_upper_bound i 8) as Hi. pose proof (Nat.mod_upper_bound j 8) as Hj.
  generalize dependent (i mod 8)%nat. generalize dependent (j mod 8)%nat.
  intros b Hb a Ha. specialize (Ha ltac:(lia)). specialize (Hb ltac:(lia)).
  split; [|by intros ->].
  do 8 (destruct a as [|a]; [do 8 (destruct b as [|b]; [done|]); lia|]). lia.
Qed.

(** X20 at the three sample runs. *)
Lemma score_bar_colours_witness :
  exists bi bj,
    ScoreComparisonChart summaryRuns !! 0%nat = Some bi
    /\ ScoreComparisonChart summaryRuns !! 1%nat = Some bj
    /\ ScoreBar.fill bi <> ScoreBar.fill bj.
Proof.
  eexists _, _. split; [reflexivity|]. split; [reflexivity|].
  intros Heq.
  apply (score_bar_colours summaryRuns 0 1 _ _ eq_refl eq_refl) in Heq.
  discriminate.
Defined.

(** X21. On the dashboard the table is capped at 420px exactly when the
    comparison view is rendered below it; otherwise it takes the height
    of the window. *)
Theorem table_height_follows_comparison (st : Page.state) (maxHeight : jsstring)
  (comparison : option Page.comparisonProps) :
  DashboardPage st = Page.Dashboard maxHeight comparison ->
  (maxHeight = str "420px" <-> is_Some comparison)
  /\ (maxHeight = str "calc(100vh - 120px)" <-> comparison = None).
Proof.
  unfold DashboardPage. destruct (Page.loading st); [discriminate|].
  destruct (_ =? 0)%nat; [discriminate|].
  destruct (2 <=? _)%nat; intros [= <- <-].
  all: repeat split; try done; try (by intros [? [=]]); eauto.
Qed.

(** X21 at a page with two visible rows. *)
Lemma table_height_follows_comparison_witness :
  exists comparison,
    DashboardPage twoRows = Page.Dashboard (str "420px") comparison
    /\ is_Some comparison.
Proof.
  eexists. split; [reflexivity|].
  by apply (table_height_follows_comparison twoRows (str "420px") _ eq_refl).
Defined.

(** ** The heatmap section from one render to the next *)

Lemma selectFileScores_nonempty (runs : list RunRow.t)
  (allScores : list (jsstring * list FileResultRow.t)) :
  NoDup (map fst allScores) ->
  (selectFileScores runs allScores <> []
   <-> exists run files, run ∈ runs /\ (RunRow.id run, files) ∈ allScores).
Proof.
  intros Hnd. split.
  - destruct (selectFileScores runs allScores) as [|[runId files] rest] eqn:E; [done|].
    intros _.
    assert (Hin : (runId, files) ∈ selectFileScores runs allScores)
      by (rewrite E; apply list_elem_of_here).
    apply selected_entry in Hin as [Hin (run & Hrun & <-)]; [|done]. eauto.
  - intros (run & files & Hrun & Hin) Hnil.
    assert (Hsel : (RunRow.id run, files) ∈ selectFileScores runs allScores)
      by (apply selected_entry; eauto).
    rewrite Hnil in Hsel. by apply elem_of_nil in Hsel.
Qed.

(** X9. In the render that follows the arrival of the file scores (an
    object, so with distinct keys), the heatmap section is absent exactly
    when the dataset has no entry for a resolved run.  With an entry, a
    table is rendered exactly when some resolved run has a non-empty
    result list and the instance did not return [null] in the previous
    render; the wrapper stays empty exactly when all the lists are empty
    and the instance did not render a table before; and in the two
    remaining cases, where the number of hooks changes, rendering fails.
    A rendered table is the one [heatmapSection] computes. *)
Theorem heatmap_section_outcomes (previous : HeatmapInstance.t)
  (runs : list RunRow.t) (allScores : list (jsstring * list FileResultRow.t))
  (isDark : bool) :
  NoDup (map fst allScores) ->
  let view := renderHeatmapSection previous runs allScores isDark in
  let hasEntry :=
    exists run files, run ∈ runs /\ (RunRow.id run, files) ∈ allScores in
  let hasResult :=
    exists run files,
      run ∈ runs /\ (RunRow.id run, files) ∈ allScores /\ files <> [] in
  (view = NoSection <-> ~ hasEntry)
  /\ ((exists heatmap, view = SectionAround (Some heatmap))
      <-> hasResult /\ previous <> HeatmapInstance.returnedNull)
  /\ (view = SectionAround None
      <-> hasEntry /\ ~ hasResult /\ previous <> HeatmapInstance.renderedTable)
  /\ (view = HookOrderError
      <-> (hasResult /\ previous = HeatmapInstance.returnedNull)
          \/ (hasEntry /\ ~ hasResult /\ previous = HeatmapInstance.renderedTable))
  /\ (forall heatmap,
        view = SectionAround (Some heatmap) ->
        heatmapSection runs allScores isDark = Some heatmap).
Proof.
  intros Hnd view hasEntry hasResult.
  pose proof (selectFileScores_nonempty runs allScores Hnd) as Hentry.
  pose proof (heatmapSection_Some runs allScores isDark Hnd) as Hresult.
  fold hasEntry in Hentry. fold hasResult in Hresult.
  assert (Hsub : hasResult -> hasEntry).
  { intros (run & files & ? & ? & _). by exists run, files. }
  subst view. clearbody hasEntry hasResult.
  unfold renderHeatmapSection, heatmapSection in *.
  destruct (selectFileScores runs allScores) as [|entry entries];
    cbn [length Nat.ltb Nat.leb] in *.
  - assert (Hno : ~ hasEntry) by (intros H; by apply Hentry in H).
    repeat (split || intro);
      repeat match goal with
             | H : _ /\ _ |- _ => destruct H
             | H : _ \/ _ |- _ => destruct H
             | H : ex _ |- _ => destruct H
             end; try discriminate; try congruence; tauto.
  - assert (Hyes : hasEntry) by (by apply Hentry).
    destruct (PerFileHeatmap runs (entry :: entries) isDark) as [heatmap|].
    + assert (Hres : hasResult) by (apply Hresult; eauto).
      destruct previous;
        repeat (split || intro);
        repeat match goal with
               | H : _ /\ _ |- _ => destruct H
               | H : _ \/ _ |- _ => destruct H
               | H : ex _ |- _ => destruct H
               end; try discriminate; try congruence; try tauto; eauto.
    + assert (Hres : ~ hasResult).
      { intros H. apply Hresult in H as [? H]. discriminate H. }
      destruct previous;
        repeat (split || intro);
        repeat match goal with
               | H : _ /\ _ |- _ => destruct H
               | H : _ \/ _ |- _ => destruct H
               | H : ex _ |- _ => destruct H
               end; try discriminate; try congruence; try tauto; eauto.
Qed.

(** X9 at the sample scores and a first render: run [r1] has results. *)
Lemma heatmap_section_outcomes_witness :
  NoDup (map fst heatScores)
  /\ exists heatmap,
       renderHeatmapSection HeatmapInstance.absent summaryRuns heatScores false
       = SectionAround (Some heatmap).
Proof.
  split; [exact heatScores_keys|].
  apply (heatmap_section_outcomes HeatmapInstance.absent summaryRuns heatScores false
           heatScores_keys).
  split; [|discriminate].
  eexists _, _. split; [apply list_elem_of_here|].
  split; [apply list_elem_of_here|discriminate].
Defined.

(** X8 at two priced runs. *)
Lemma ranking_is_sorted_witness :
  exists ranking,
    CostEfficiencyChart pricedRuns pricedCatalog = Some ranking
    /\ Forall (fun e => isNaN (Efficiency.efficiency e) = false)
         (mapFilterIndexed (efficiencyEntry pricedCatalog) pricedRuns)
    /\ Sorted (fun a b =>
                 PrimFloat.ltb 0 (Efficiency.efficiency b - Efficiency.efficiency a)
                 = false) ranking.
Proof.
  eexists. split; [reflexivity|].
  assert (Hnan : Forall (fun e => isNaN (Efficiency.efficiency e) = false)
                   (mapFilterIndexed (efficiencyEntry pricedCatalog) pricedRuns))
    by (repeat constructor).
  split; [exact Hnan|].
  destruct (ranking_is_sorted pricedRuns pricedCatalog) as [_ Hsome].
  destruct (Hsome _ eq_refl) as [_ Hsorted]. exact (Hsorted Hnan).
Defined.
